(** * Face recognition attendance system: the recognition pipeline of app.py

    A shallow embedding of the state and of the methods of
    [FaceRecognitionApp] (src/app.py) that drive recognition and attendance:
    [update_recognition_state], [_run_deepface_recognition],
    [_frame_processing_worker] and [mark_attendance], followed by the
    properties of the specification that concern them.

    Conventions of the embedding:
    - Python [str] is [string], [list] is [list], the [dict]
      [recently_logged] is a [gmap string Z];
    - a [collections.Counter] is an association list in insertion order,
      because [most_common] breaks ties by that order;
    - [datetime] values are microseconds on the integer line, and
      [time.monotonic()] readings are rationals (seconds);
    - a ratio of two small integers compared with 0.75, and a distance
      compared with 0.40, are compared as rationals: the order of the
      operands is what the code observes;
    - what the code gets from outside (the detector, DeepFace, the clock, the
      disk, the state of the future) is an explicit input of the step that
      reads it. *)

From Stdlib Require Import ZArith QArith Ascii String List Bool Lia.
From stdpp Require Import base option list gmap strings.
Import ListNotations.

Local Open Scope string_scope.

(** ** Constants of [FaceRecognitionApp.__init__] *)

Definition LOG_COOLDOWN_SECONDS : Z := 300.
Definition RECOGNITION_INTERVAL : Q := 75 # 100.
Definition FRAME_PROCESS_SCALE_FACTOR : Q := 5 # 10.
Definition HISTORY_MAX_LENGTH : nat := 8.
Definition CONFIDENCE_THRESHOLD_PERCENT : Q := 75 # 100.
Definition REQUIRED_STABLE_FRAMES : Z := 4.
Definition DEEPFACE_DISTANCE_THRESHOLD : Q := 40 # 100.
Definition student_attendance_file : string := "student_attendance.csv".
Definition faculty_attendance_file : string := "faculty_attendance.csv".

(** ** Data model *)

(** A frame is a bitmap: rows of pixel values. *)
Definition Frame : Type := list (list Z).

(** The second component of a recognition result: a distance, or
    [float('inf')]. *)
Inductive Distance : Type :=
  | Finite (d : Q)
  | Infinity.

(** The handle returned by [recognition_executor.submit]; it remembers the
    frame the task was given. Whether the task is running is not a field: it
    changes under the executor's thread and is read through [running()]. *)
Record Future : Type := mkFuture { task_frame : Frame }.

(** The attributes of [self] that the pipeline reads and writes. *)
Record App : Type := mkApp {
  database_ready : bool;
  locked_in_person : option string;
  recognition_history : list string;
  stable_recognition_count : Z;
  recently_logged : gmap string Z;
  last_recognition_result : string * Distance;
  last_recognition_time : Q;
  recognition_future : option Future
}.

(** The state variables as [__init__] sets them. *)
Definition initial_app : App :=
  mkApp false None [] 0 ∅ ("Searching...", Infinity) 0 None.

Definition with_stabilization
    (s : App) (l : option string) (h : list string) (c : Z) : App :=
  mkApp (database_ready s) l h c (recently_logged s)
        (last_recognition_result s) (last_recognition_time s)
        (recognition_future s).

Definition with_last_recognition_result (s : App) (r : string * Distance) : App :=
  mkApp (database_ready s) (locked_in_person s) (recognition_history s)
        (stable_recognition_count s) (recently_logged s)
        r (last_recognition_time s) (recognition_future s).

Definition with_dispatch (s : App) (t : Q) (f : Future) : App :=
  mkApp (database_ready s) (locked_in_person s) (recognition_history s)
        (stable_recognition_count s) (recently_logged s)
        (last_recognition_result s) t (Some f).

Definition with_database_ready (s : App) (b : bool) : App :=
  mkApp b (locked_in_person s) (recognition_history s)
        (stable_recognition_count s) (recently_logged s)
        (last_recognition_result s) (last_recognition_time s)
        (recognition_future s).

(** ** [collections.Counter] and [most_common(1)] *)

(** [self[elem] = self.get(elem, 0) + 1]: an existing key keeps its place, a
    new key goes to the end. *)
Fixpoint Counter_add (x : string) (c : list (string * nat)) : list (string * nat) :=
  match c with
  | [] => [(x, 1)]
  | (k, n) :: c' =>
      if String.eqb k x then (k, S n) :: c' else (k, n) :: Counter_add x c'
  end.

(** [Counter(iterable)]: the elements are counted from left to right. *)
Definition Counter (h : list string) : list (string * nat) :=
  fold_left (fun c x => Counter_add x c) h [].

(** [max(it, key=itemgetter(1))] continued from a current best: a later item
    replaces the best only when its count is strictly larger. *)
Fixpoint max_by_count (best : string * nat) (rest : list (string * nat)) : string * nat :=
  match rest with
  | [] => best
  | kv :: rest' =>
      if Nat.ltb (snd best) (snd kv) then max_by_count kv rest'
      else max_by_count best rest'
  end.

(** [most_common(1)]: [heapq.nlargest(1, items, key=count)], that is, the
    first item of maximal count, or the empty list. *)
Definition most_common_1 (c : list (string * nat)) : list (string * nat) :=
  match c with
  | [] => []
  | kv :: rest => [max_by_count kv rest]
  end.

(** ** The stabilization update *)

(** [name not in ["Unknown", "Error", "Searching..."]], negated. *)
Definition is_sentinel (name : string) : bool :=
  existsb (String.eqb name) ["Unknown"; "Error"; "Searching..."].

(** Truth value of [self.locked_in_person]: [None] and the empty string are
    false. This is the test by which the code decides that somebody is
    locked in ([update_recognition_state], [draw_on_frame],
    [manual_mark_attendance]). *)
Definition is_locked (l : option string) : bool :=
  match l with
  | None => false
  | Some name => negb (String.eqb name "")
  end.

(** [append(name)], then [pop(0)] when the list got longer than
    [HISTORY_MAX_LENGTH]. *)
Definition push_history (name : string) (h : list string) : list string :=
  let h' := (h ++ [name])%list in
  if Nat.ltb HISTORY_MAX_LENGTH (length h') then tail h' else h'.

(** [count / len(self.recognition_history)] *)
Definition proportion (count len : nat) : Q :=
  Z.of_nat count # Pos.of_nat len.

(** The condition of the [if] on the most common name and its count. *)
Definition confident (name : string) (count len : nat) : bool :=
  negb (is_sentinel name)
  && Qle_bool CONFIDENCE_THRESHOLD_PERCENT (proportion count len).

Definition option_string_eqb (a : option string) (b : string) : bool :=
  match a with
  | Some a' => String.eqb a' b
  | None => false
  end.

Definition update_recognition_state (s : App) (name : string) : App :=
  let h := push_history name (recognition_history s) in
  match h with
  | [] => with_stabilization s (locked_in_person s) h (stable_recognition_count s)
  | _ :: _ =>
      match most_common_1 (Counter h) with
      | [] =>
          (* [most_common(1)[0]] on an empty counter; the history is not
             empty here, so the counter is not either *)
          with_stabilization s (locked_in_person s) h (stable_recognition_count s)
      | (most_common_name, count) :: _ =>
          if confident most_common_name count (length h) then
            if (stable_recognition_count s <? REQUIRED_STABLE_FRAMES)%Z then
              with_stabilization s (locked_in_person s) h
                                 (stable_recognition_count s + 1)
            else if negb (option_string_eqb (locked_in_person s) most_common_name) then
              with_stabilization s (Some most_common_name) h
                                 (stable_recognition_count s)
            else
              with_stabilization s (locked_in_person s) h
                                 (stable_recognition_count s)
          else
            if is_locked (locked_in_person s) then
              with_stabilization s None [] 0
            else
              with_stabilization s (locked_in_person s) h 0
      end
  end.

(** Feeding a sequence of labels, one call per label. *)
Definition feed (s : App) (labels : list string) : App :=
  fold_left update_recognition_state labels s.

(** ** Exceptions *)

(** A Python exception, by the name of its class. *)
Inductive Exception : Type :=
  | PyException (cls : string).

(** The outcome of a call that may raise. *)
Inductive Result (A : Type) : Type :=
  | Ok (a : A)
  | Raise (e : Exception).
Arguments Ok {A} a.
Arguments Raise {A} e.

(** ** The recognition task *)

(** A row of the data frame that [DeepFace.find] returns: the path of the
    matching image and its distance. *)
Record Match : Type := mkMatch {
  identity : string;
  distance : Q
}.

(** A [pandas.DataFrame] of matches, best match first; [df.empty] is
    [df = []]. *)
Definition DataFrame : Type := list Match.

(** What [DeepFace.find] returns: a list of data frames, or something that
    is not a list. *)
Inductive FindReturn : Type :=
  | NotAList
  | ListOf (dfs : list DataFrame).

(** [s.replace(old, new)] for one-character [old] and [new]. *)
Fixpoint replace_char (old new : Ascii.ascii) (s : string) : string :=
  match s with
  | EmptyString => EmptyString
  | String c s' =>
      String (if Ascii.eqb c old then new else c) (replace_char old new s')
  end.

(** ** The attendance gate: data *)

(** [details.json] of a user folder, as [open] and [json.load] deliver it. *)
Inductive DetailsFile : Type :=
  | Unreadable (e : Exception)
  | Json (fields : gmap string string).

(** A cell of a CSV row: a text, or a time formatted by [strftime]. *)
Inductive Cell : Type :=
  | Text (s : string)
  | Strftime (format : string) (t : Z).

Definition Row : Type := list Cell.

(** The files the gate touches: the [details.json] of each folder of
    [db_path] (absent key: the file does not exist), and the rows of each CSV
    file (absent key: no file; no rows: a file of size 0). *)
Record Disk : Type := mkDisk {
  details_files : gmap string DetailsFile;
  csv_files : gmap string (list Row)
}.

(** The calls of [self.log_message] made by [mark_attendance]. *)
Inductive LogMessage : Type :=
  | DetailsNotFound (name : string)
  | DetailsNotRead (name : string) (e : Exception)
  | UnknownUserType (user_type name : string)
  | LOGGED (name department : string) (now : Z)
  | ErrorWriting (target_file : string) (e : Exception).

(** What one call of [mark_attendance] leaves behind: the attributes of
    [self], the disk, the messages logged, and the row appended by
    [to_csv] when it returned. *)
Record Marked : Type := mkMarked {
  marked_app : App;
  marked_disk : Disk;
  marked_messages : list LogMessage;
  marked_written : option (string * Row)
}.

(** [timedelta(seconds=n)] in microseconds. *)
Definition timedelta_seconds (n : Z) : Z := (n * 1000000)%Z.

Definition with_logged (s : App) (name : string) (until : Z) : App :=
  mkApp (database_ready s) None [] (stable_recognition_count s)
        (<[name := until]> (recently_logged s))
        (last_recognition_result s) (last_recognition_time s)
        (recognition_future s).

(** [name in self.recently_logged and now < self.recently_logged[name]] *)
Definition on_cooldown (s : App) (name : string) (now : Z) : bool :=
  match recently_logged s !! name with
  | Some until => (now <? until)%Z
  | None => false
  end.

Definition columns : Row :=
  [Text "Name"; Text "Department"; Text "Date"; Text "Time"].

(** [not os.path.exists(target_file) or os.path.getsize(target_file) == 0] *)
Definition needs_header (d : Disk) (target_file : string) : bool :=
  match csv_files d !! target_file with
  | None => true
  | Some rows => Nat.eqb (length rows) 0
  end.

(** [entry.to_csv(target_file, mode='a', header=..., index=False)] when it
    returns. *)
Definition to_csv (d : Disk) (target_file : string) (header : bool) (entry : Row) : Disk :=
  let old := default [] (csv_files d !! target_file) in
  let new := (old ++ (if header then [columns] else []) ++ [entry])%list in
  mkDisk (details_files d) (<[target_file := new]> (csv_files d)).

(** [mark_attendance(name)] at the time [now] on the disk [d]; [write_error]
    is the exception that [to_csv] raises, if it raises. The body under
    [write_lock] runs as one step. *)
Definition mark_attendance
    (s : App) (d : Disk) (name : string) (now : Z)
    (write_error : option Exception) : Marked :=
  if on_cooldown s name now then mkMarked s d [] None
  else
    let folder_name := replace_char " "%char "_"%char name in
    match details_files d !! folder_name with
    | None => mkMarked s d [DetailsNotFound name] None
    | Some (Unreadable e) => mkMarked s d [DetailsNotRead name e] None
    | Some (Json details) =>
        let user_type := default "Unknown" (details !! "user_type") in
        let department := default "N/A" (details !! "department") in
        let entry_data : Row :=
          [Text name; Text department;
           Strftime "%Y-%m-%d" now; Strftime "%H:%M:%S" now] in
        let commit (target_file : string) : Marked :=
          match write_error with
          | Some e => mkMarked s d [ErrorWriting target_file e] None
          | None =>
              mkMarked
                (with_logged s name (now + timedelta_seconds LOG_COOLDOWN_SECONDS))
                (to_csv d target_file (needs_header d target_file) entry_data)
                [LOGGED name department now]
                (Some (target_file, entry_data))
          end in
        if String.eqb user_type "Student" then commit student_attendance_file
        else if String.eqb user_type "Faculty" then commit faculty_attendance_file
        else mkMarked s d [UnknownUserType user_type name] None
    end.

(** ** The frame-processing worker: data *)

(** A bounding box [(x, y, w, h)]. *)
Definition Rect : Type := (Z * Z * Z * Z).

Definition area (r : Rect) : Z :=
  let '(_, _, w, h) := r in (w * h)%Z.

(** [max(faces, key=lambda rect: rect[2] * rect[3])] continued from a current
    best. *)
Fixpoint max_by_area (best : Rect) (rest : list Rect) : Rect :=
  match rest with
  | [] => best
  | r :: rest' =>
      if (area best <? area r)%Z then max_by_area r rest' else max_by_area best rest'
  end.

(** [int(q)]: truncation towards zero. *)
Definition int_of_Q (q : Q) : Z := Z.quot (Qnum q) (Zpos (Qden q)).

(** [int(c / self.FRAME_PROCESS_SCALE_FACTOR)] *)
Definition rescale (c : Z) : Z :=
  int_of_Q (inject_Z c / FRAME_PROCESS_SCALE_FACTOR).

Definition face_coords_of (faces : list Rect) : option Rect :=
  match faces with
  | [] => None
  | r :: rest =>
      let '(x, y, w, h) := max_by_area r rest in
      Some (rescale x, rescale y, rescale w, rescale h)
  end.

(** [cv2.flip(frame, 1)]: every row is reversed. *)
Definition cv2_flip (frame : Frame) : Frame := map (@rev Z) frame.

(** The arguments of [draw_on_frame], which stand for the annotated frame it
    returns. *)
Record Annotated : Type := mkAnnotated {
  annotated_frame : Frame;
  annotated_face_coords : option Rect;
  annotated_name : string;
  annotated_distance : Distance
}.

(** What one pass through the body of the loop meets outside [self]. *)
Record Tick : Type := mkTick {
  (** [self.app_running.is_set()] at the head of the loop *)
  app_running : bool;
  (** [self.raw_frame_queue.get(timeout=1.0)]; [None] is [queue.Empty] *)
  raw_frame : option Frame;
  (** [self.face_cascade.detectMultiScale(...)] *)
  detectMultiScale : Result (list Rect);
  (** [time.monotonic()] *)
  monotonic : Q;
  (** [self.recognition_future.running()], when there is a future *)
  future_running : bool;
  (** whether [self.processed_frame_queue.put(..., block=False)] finds the
      queue full *)
  processed_queue_full : bool;
  (** the outcome of [DeepFace.find] in a recognition task that finishes
      before this pass reads [self.last_recognition_result] *)
  recognition_finished : option (Result FindReturn)
}.

(** [self.recognition_future and self.recognition_future.running()] *)
Definition is_recognition_running (s : App) (t : Tick) : bool :=
  match recognition_future s with
  | None => false
  | Some _ => future_running t
  end.

(** The condition under which a recognition task is submitted. *)
Definition dispatch_gate (s : App) (face_coords : option Rect) (t : Tick) : bool :=
  database_ready s
  && bool_decide (is_Some face_coords)
  && negb (is_recognition_running s t)
  && negb (Qle_bool (monotonic t - last_recognition_time s) RECOGNITION_INTERVAL).

(** What one pass leaves behind: the attributes of [self], the frame handed
    to the executor, and the frame put on the output queue. *)
Record Pass : Type := mkPass {
  pass_app : App;
  pass_submitted : option Frame;
  pass_put : option Annotated
}.

(** The body of the [while] loop of [_frame_processing_worker]. *)
Definition worker_pass (t : Tick) (s : App) : Result Pass :=
  match raw_frame t with
  | None => Ok (mkPass s None None)
  | Some frame0 =>
      let frame := cv2_flip frame0 in
      match detectMultiScale t with
      | Raise e => Raise e
      | Ok faces =>
          let face_coords := face_coords_of faces in
          let current_time := monotonic t in
          let dispatched := dispatch_gate s face_coords t in
          let s1 :=
            if dispatched then with_dispatch s current_time (mkFuture frame)
            else s in
          let s2 := update_recognition_state s1 (fst (last_recognition_result s1)) in
          let annotated :=
            mkAnnotated frame face_coords
                        (fst (last_recognition_result s1))
                        (snd (last_recognition_result s1)) in
          Ok (mkPass s2
                     (if dispatched then Some frame else None)
                     (if processed_queue_full t then None else Some annotated))
      end
  end.

(** How a run of the worker stands. *)
Inductive WorkerStatus : Type :=
  | Looping
  | Returned
  | Propagated (e : Exception).

Record WorkerRun : Type := mkWorkerRun {
  run_status : WorkerStatus;
  run_app : App;
  run_passes : nat;
  run_submitted : list Frame;
  run_put : list Annotated
}.

Section Pipeline.

(** [os.path.basename] and [os.path.dirname] of the platform. *)
Variables os_path_basename os_path_dirname : string -> string.

(** [_run_deepface_recognition(frame)], given the outcome of
    [DeepFace.find]. *)
Definition _run_deepface_recognition (s : App) (found : Result FindReturn) : App :=
  match found with
  | Ok (ListOf (df :: _)) =>
      match df with
      | best_match :: _ =>
          if negb (Qle_bool DEEPFACE_DISTANCE_THRESHOLD (distance best_match)) then
            let identity_path := identity best_match in
            let name :=
              replace_char "_"%char " "%char (os_path_basename (os_path_dirname identity_path)) in
            with_last_recognition_result s (name, Finite (distance best_match))
          else
            with_last_recognition_result s ("Unknown", Finite (distance best_match))
      | [] => with_last_recognition_result s ("Unknown", Infinity)
      end
  | Ok (ListOf []) => with_last_recognition_result s ("Unknown", Infinity)
  | Ok NotAList => with_last_recognition_result s ("Unknown", Infinity)
  | Raise _ => with_last_recognition_result s ("Unknown", Infinity)
  end.

(** A recognition task that finishes between two passes stores its result. *)
Definition recognition_thread (s : App) (t : Tick) : App :=
  match recognition_finished t with
  | Some found => _run_deepface_recognition s found
  | None => s
  end.

(** [_frame_processing_worker] over the passes that [ticks] describes. The
    run is [Returned] when [app_running] is found cleared, [Propagated e]
    when the body raises [e], which ends the thread, and [Looping] when the
    ticks are used up. *)
Fixpoint _frame_processing_worker (ticks : list Tick) (r : WorkerRun) : WorkerRun :=
  match ticks with
  | [] => r
  | t :: ticks' =>
      let s := recognition_thread (run_app r) t in
      if negb (app_running t) then
        mkWorkerRun Returned s (run_passes r) (run_submitted r) (run_put r)
      else
        match worker_pass t s with
        | Raise e =>
            mkWorkerRun (Propagated e) s (run_passes r) (run_submitted r) (run_put r)
        | Ok p =>
            _frame_processing_worker ticks'
              (mkWorkerRun Looping (pass_app p) (S (run_passes r))
                 (run_submitted r ++ option_list (pass_submitted p))
                 (run_put r ++ option_list (pass_put p)))
        end
  end.

Definition start_worker (s : App) : WorkerRun := mkWorkerRun Looping s 0 [] [].

(** The states of [self] that the program can be in: the initial one, and
    those that a call of one of the methods above leads to. *)
Inductive reachable : App -> Prop :=
  | reachable_initial : reachable initial_app
  | reachable_update s name :
      reachable s -> reachable (update_recognition_state s name)
  | reachable_recognition s found :
      reachable s -> reachable (_run_deepface_recognition s found)
  | reachable_pass s t p :
      reachable s -> worker_pass t s = Ok p -> reachable (pass_app p)
  | reachable_mark s d name now write_error :
      reachable s ->
      reachable (marked_app (mark_attendance s d name now write_error))
  | reachable_database s b :
      reachable s -> reachable (with_database_ready s b).

End Pipeline.

(** ** The button, the status line and the database check *)

(** What [manual_mark_attendance] does: it calls [mark_attendance] for the
    person locked in, or shows the warning "No person recognized to mark
    attendance." *)
Inductive ManualOutcome : Type :=
  | NoPersonWarning
  | MarkCalled (r : Marked).

Definition manual_mark_attendance
    (s : App) (d : Disk) (now : Z) (write_error : option Exception) : ManualOutcome :=
  match locked_in_person s with
  | Some person =>
      if is_locked (Some person) then MarkCalled (mark_attendance s d person now write_error)
      else NoPersonWarning
  | None => NoPersonWarning
  end.

(** The attributes of [self] after [manual_mark_attendance]. *)
Definition manual_app (s : App) (o : ManualOutcome) : App :=
  match o with
  | NoPersonWarning => s
  | MarkCalled r => marked_app r
  end.

(** The theme colours that [draw_on_frame] uses. *)
Inductive Color : Type :=
  | COLOR_ACCENT
  | COLOR_WARNING
  | COLOR_SUCCESS
  | COLOR_DANGER.

(** The status lines of [draw_on_frame], by their f-strings. *)
Inductive StatusText : Type :=
  | SearchingForFace
  | AlreadyLogged (person : string) (remaining : Z)
  | ReadyToMark (person : string)
  | Identifying (name : string) (count required : Z)
  | UnknownFaceDetected
  | AnalyzingFace.

(** The text over the box: the name alone, or the name and the distance
    with two decimals. *)
Inductive Caption : Type :=
  | NameOnly (display_name : string)
  | NameAndDistance (display_name : string) (d : Q).

Record Drawn : Type := mkDrawn {
  status_text : StatusText;
  status_color : Color;
  box_color : Color;
  display_name : string;
  drawn_box : option (Rect * Caption)
}.

(** [int(delta.total_seconds())] for a difference of microseconds. *)
Definition whole_seconds (delta : Z) : Z := Z.quot delta 1000000.

(** [draw_on_frame(frame, face_coords, name, distance)], without the pixels.
    [now1] and [now2] are the two readings of [datetime.now()], the first in
    the cooldown test and the second in the remaining time. *)
Definition draw_on_frame
    (s : App) (now1 now2 : Z)
    (face_coords : option Rect) (name : string) (dist : Distance) : Drawn :=
  let '(text, color, box, shown) :=
    if is_locked (locked_in_person s) then
      let person := default "" (locked_in_person s) in
      if on_cooldown s person now1 then
        let remaining :=
          whole_seconds (default 0%Z (recently_logged s !! person) - now2) in
        (AlreadyLogged person remaining, COLOR_WARNING, COLOR_WARNING, person)
      else (ReadyToMark person, COLOR_SUCCESS, COLOR_SUCCESS, person)
    else if (0 <? stable_recognition_count s)%Z
            && negb (existsb (String.eqb name) ["Searching..."; "Unknown"]) then
      (Identifying name (stable_recognition_count s) REQUIRED_STABLE_FRAMES,
       COLOR_WARNING, COLOR_WARNING, name)
    else
      match face_coords with
      | Some _ =>
          if String.eqb name "Unknown" then
            (UnknownFaceDetected, COLOR_DANGER, COLOR_DANGER, "Unknown")
          else (AnalyzingFace, COLOR_ACCENT, COLOR_ACCENT, "Analyzing...")
      | None => (SearchingForFace, COLOR_ACCENT, COLOR_ACCENT, "Searching...")
      end in
  mkDrawn text color box shown
    (match face_coords with
     | Some rect =>
         Some (rect, match dist with
                     | Finite d => NameAndDistance shown d
                     | Infinity => NameOnly shown
                     end)
     | None => None
     end).

(** An entry of [os.listdir(self.db_path)] with its [os.path.isdir]. *)
Record DirEntry : Type := mkDirEntry {
  entry_name : string;
  entry_isdir : bool
}.

(** The status lines of [_initialize_models_and_verify_db]. *)
Inductive DatabaseStatus : Type :=
  | DatabaseEmpty
  | NoUserFolders
  | ReadyForRecognition (users : nat)
  | ErrorLoadingModels (e : Exception).

(** [_initialize_models_and_verify_db()]: [listing] is the content of
    [db_path], [None] when the path does not exist, and [warm_up] the
    outcome of the call of [DeepFace.find] on the blank image. *)
Definition _initialize_models_and_verify_db
    (s : App) (listing : option (list DirEntry)) (warm_up : Result FindReturn)
    : App * DatabaseStatus :=
  match listing with
  | None => (with_database_ready s false, DatabaseEmpty)
  | Some [] => (with_database_ready s false, DatabaseEmpty)
  | Some entries =>
      let user_folders := List.filter entry_isdir entries in
      match user_folders with
      | [] => (with_database_ready s false, NoUserFolders)
      | _ :: _ =>
          match warm_up with
          | Ok _ => (with_database_ready s true, ReadyForRecognition (length user_folders))
          | Raise e => (with_database_ready s false, ErrorLoadingModels e)
          end
      end
  end.

(** ** The camera worker and its queue *)








(** ** The login form *)

(** A [PlaceholderEntry]: the text of the entry, its [show] and [style]
    options, and the two attributes that [__init__] sets. *)
Record PlaceholderEntry : Type := mkPlaceholderEntry {
  entry_text : string;
  entry_show : string;
  entry_style : string;
  placeholder : string;
  _is_password : bool
}.

(** [PlaceholderEntry(container, placeholder, show=...)]; [show] is [None]
    when the keyword is not given. *)
Definition PlaceholderEntry_init (placeholder : string) (show : option string) : PlaceholderEntry :=
  let is_password :=
    match show with
    | Some sh => String.eqb sh "*"
    | None => false
    end in
  mkPlaceholderEntry placeholder
                     (if is_password then "" else default "" show)
                     "Placeholder.TEntry" placeholder is_password.

(** The handler of [<FocusIn>]. *)
Definition _clear_placeholder (e : PlaceholderEntry) : PlaceholderEntry :=
  if String.eqb (entry_text e) (placeholder e) then
    mkPlaceholderEntry "" (if _is_password e then "*" else entry_show e)
                       "TEntry" (placeholder e) (_is_password e)
  else e.

(** The handler of [<FocusOut>]. *)
Definition _add_placeholder (e : PlaceholderEntry) : PlaceholderEntry :=
  if String.eqb (entry_text e) "" then
    mkPlaceholderEntry (placeholder e) (if _is_password e then "" else entry_show e)
                       "Placeholder.TEntry" (placeholder e) (_is_password e)
  else e.

(** The user replaces the text of the entry. *)
Definition typed (e : PlaceholderEntry) (text : string) : PlaceholderEntry :=
  mkPlaceholderEntry text (entry_show e) (entry_style e) (placeholder e) (_is_password e).

(** [check_credentials]: the role to launch, or [None] for the message
    "Invalid username or password". *)
Definition check_credentials (username_entry password_entry : PlaceholderEntry)
    : option string :=
  let user :=
    if String.eqb (entry_text username_entry) (placeholder username_entry) then ""
    else entry_text username_entry in
  let pwd :=
    if String.eqb (entry_text password_entry) (placeholder password_entry) then ""
    else entry_text password_entry in
  if String.eqb user "admin" && String.eqb pwd "admin123" then Some "admin"
  else if String.eqb user "user" && String.eqb pwd "user123" then Some "user"
  else None.

(** ** Notions used in the properties *)

(** The number of occurrences of [x] in [h]. *)
Fixpoint count_of (x : string) (h : list string) : nat :=
  match h with
  | [] => 0
  | y :: h' => (if String.eqb y x then 1 else 0) + count_of x h'
  end.

(** The count that a counter holds for [k]; 0 when [k] is not a key. *)
Fixpoint count_in (k : string) (c : list (string * nat)) : nat :=
  match c with
  | [] => 0
  | (k', n) :: c' => if String.eqb k' k then n else count_in k c'
  end.

(** The history ends with [r] copies of [M]. *)
Definition ends_with_run (M : string) (r : nat) (h : list string) : Prop :=
  exists pre, h = (pre ++ repeat M r)%list.

(** The next [M] makes [M] fill three quarters of the history. *)
Definition ready_for (M : string) (h : list string) : Prop :=
  3 * length (push_history M h) <= 4 * count_of M (push_history M h).

(** The bounds that every operation keeps. *)
Definition stabilization_bounds (s : App) : Prop :=
  length (recognition_history s) <= HISTORY_MAX_LENGTH
  /\ (0 <= stable_recognition_count s <= REQUIRED_STABLE_FRAMES)%Z.

(** Two states agree on the three stabilization attributes. *)
Definition same_stabilization (s1 s2 : App) : Prop :=
  locked_in_person s1 = locked_in_person s2
  /\ recognition_history s1 = recognition_history s2
  /\ stable_recognition_count s1 = stable_recognition_count s2.

(** The character [c] occurs in [s]. *)
Fixpoint has_char (c : Ascii.ascii) (s : string) : bool :=
  match s with
  | EmptyString => false
  | String c' s' => Ascii.eqb c' c || has_char c s'
  end.

(** A pass that finds the flag set, a frame on the queue and a detector
    that returns, while no recognition task finishes. *)
Definition plain_tick (t : Tick) : Prop :=
  app_running t = true
  /\ is_Some (raw_frame t)
  /\ (exists faces, detectMultiScale t = Ok faces)
  /\ recognition_finished t = None.

(** * Properties *)

(** ** Counting in the history *)

Lemma count_of_app x h1 h2 :
  count_of x (h1 ++ h2)%list = count_of x h1 + count_of x h2.
Proof. induction h1 as [|y h1 IH]; simpl; [reflexivity | lia]. Qed.

Lemma count_of_repeat x n : count_of x (repeat x n) = n.
Proof.
  induction n as [|n IH]; simpl; [reflexivity|].
  rewrite String.eqb_refl, IH. reflexivity.
Qed.

Lemma count_of_le_length x h : count_of x h <= length h.
Proof.
  induction h as [|y h IH]; simpl; [lia|].
  destruct (String.eqb y x); lia.
Qed.

Lemma count_of_two x y h :
  x <> y -> count_of x h + count_of y h <= length h.
Proof.
  intros Hxy. induction h as [|z h IH]; simpl; [lia|].
  destruct (String.eqb_spec z x) as [Hzx|Hzx];
    destruct (String.eqb_spec z y) as [Hzy|Hzy]; try lia.
  congruence.
Qed.

Lemma count_in_Counter_add k x c :
  count_in k (Counter_add x c) =
  if String.eqb x k then S (count_in k c) else count_in k c.
Proof.
  induction c as [|[k' n] c IH]; simpl.
  - destruct (String.eqb x k); reflexivity.
  - destruct (String.eqb_spec k' x) as [->|Hk'x]; simpl.
    + destruct (String.eqb x k); reflexivity.
    + destruct (String.eqb_spec k' k) as [->|Hk'k].
      * destruct (String.eqb_spec x k); [congruence | reflexivity].
      * apply IH.
Qed.

Lemma In_keys_Counter_add k x c :
  In k (map fst (Counter_add x c)) <-> k = x \/ In k (map fst c).
Proof.
  induction c as [|[k' n] c IH]; simpl.
  - intuition.
  - destruct (String.eqb_spec k' x) as [->|Hk'x]; simpl.
    + intuition.
    + rewrite IH. intuition.
Qed.

Lemma NoDup_keys_Counter_add x c :
  NoDup (map fst c) -> NoDup (map fst (Counter_add x c)).
Proof.
  induction c as [|[k' n] c IH]; simpl; intros Hnd.
  - apply NoDup_singleton.
  - inversion Hnd as [|? ? Hnotin Hnd']; subst.
    destruct (String.eqb_spec k' x) as [->|Hk'x]; simpl.
    + constructor; assumption.
    + constructor; [|apply IH; assumption].
      rewrite list_elem_of_In, In_keys_Counter_add.
      intros [->|Hin]; [congruence|]. apply Hnotin, list_elem_of_In, Hin.
Qed.

Lemma Counter_snoc h x : Counter (h ++ [x])%list = Counter_add x (Counter h).
Proof. unfold Counter. rewrite fold_left_app. reflexivity. Qed.

Lemma NoDup_keys_Counter h : NoDup (map fst (Counter h)).
Proof.
  induction h as [|x h IH] using rev_ind.
  - constructor.
  - rewrite Counter_snoc. apply NoDup_keys_Counter_add, IH.
Qed.

(** A counter holds, for every name, its number of occurrences. *)
Lemma count_in_Counter k h : count_in k (Counter h) = count_of k h.
Proof.
  induction h as [|x h IH] using rev_ind.
  - reflexivity.
  - rewrite Counter_snoc, count_in_Counter_add, count_of_app, IH. simpl.
    destruct (String.eqb x k); lia.
Qed.

Lemma In_count_in k n c :
  NoDup (map fst c) -> In (k, n) c -> count_in k c = n.
Proof.
  induction c as [|[k' n'] c IH]; simpl; intros Hnd Hin; [contradiction|].
  inversion Hnd as [|? ? Hnotin Hnd']; subst.
  destruct Hin as [Heq|Hin].
  - inversion Heq; subst. rewrite String.eqb_refl. reflexivity.
  - destruct (String.eqb_spec k' k) as [->|Hne].
    + exfalso. apply Hnotin, list_elem_of_In. apply (in_map fst) in Hin. exact Hin.
    + apply IH; assumption.
Qed.

Lemma count_in_In k c : 0 < count_in k c -> In (k, count_in k c) c.
Proof.
  induction c as [|[k' n'] c IH]; simpl; intros Hpos; [lia|].
  destruct (String.eqb_spec k' k) as [->|Hne]; [left; reflexivity|].
  right. apply IH, Hpos.
Qed.

(** [max_by_count] returns one of the items, of maximal count. *)
Lemma max_by_count_spec best rest :
  In (max_by_count best rest) (best :: rest) /\
  forall kv, In kv (best :: rest) -> snd kv <= snd (max_by_count best rest).
Proof.
  revert best. induction rest as [|kv' rest IH]; intros best; simpl.
  - split; [left; reflexivity|]. intros kv [<-|[]]. lia.
  - destruct (Nat.ltb_spec (snd best) (snd kv')) as [Hlt|Hge].
    + destruct (IH kv') as [Hin Hmax]. split.
      * right. exact Hin.
      * intros kv [<-|Hkv]; [|apply Hmax, Hkv].
        specialize (Hmax kv' (or_introl eq_refl)). lia.
    + destruct (IH best) as [Hin Hmax]. split.
      * destruct Hin as [Heq|Hin]; [left; exact Heq | right; right; exact Hin].
      * intros kv [<-|[<-|Hkv]].
        -- apply Hmax. left. reflexivity.
        -- specialize (Hmax best (or_introl eq_refl)). lia.
        -- apply Hmax. right. exact Hkv.
Qed.

(** On a history that is not empty, [most_common(1)] has exactly one item:
    a name of the history with its number of occurrences, which no other
    name exceeds. *)
Lemma most_common_1_defined h :
  h <> [] ->
  exists M, most_common_1 (Counter h) = [(M, count_of M h)]
            /\ 0 < count_of M h
            /\ forall k, count_of k h <= count_of M h.
Proof.
  intros Hne.
  destruct h as [|x0 h0] eqn:Hh; [congruence|]. rewrite <- Hh in *. clear Hne.
  assert (Hx0 : 0 < count_of x0 h).
  { rewrite Hh. simpl. rewrite String.eqb_refl. lia. }
  rewrite <- count_in_Counter in Hx0. apply count_in_In in Hx0.
  destruct (Counter h) as [|kv rest] eqn:Hc; [destruct Hx0|].
  unfold most_common_1.
  destruct (max_by_count_spec kv rest) as [Hin Hmax].
  destruct (max_by_count kv rest) as [M n] eqn:Hm.
  assert (Hn : n = count_of M h).
  { rewrite <- count_in_Counter, Hc. symmetry. apply In_count_in; [|exact Hin].
    rewrite <- Hc. apply NoDup_keys_Counter. }
  subst n. exists M. split; [reflexivity|].
  assert (Hle : forall k, count_of k h <= count_of M h).
  { intros k. destruct (Nat.eq_dec (count_of k h) 0) as [->|Hpos]; [lia|].
    assert (Hk : In (k, count_in k (Counter h)) (Counter h))
      by (apply count_in_In; rewrite count_in_Counter; lia).
    rewrite count_in_Counter, Hc in Hk. apply Hmax in Hk. exact Hk. }
  split; [|exact Hle].
  specialize (Hle x0). rewrite Hh in Hle |- *. simpl in Hle |- *.
  rewrite String.eqb_refl in Hle. lia.
Qed.

(** A name that fills more than half of the history is the most common
    one. *)
Lemma most_common_1_majority M h :
  length h < 2 * count_of M h ->
  most_common_1 (Counter h) = [(M, count_of M h)].
Proof.
  intros Hmaj.
  assert (Hne : h <> []) by (intros ->; simpl in Hmaj; lia).
  destruct (most_common_1_defined h Hne) as (M' & Heq & _ & Hle).
  destruct (String.eqb_spec M' M) as [->|Hdiff]; [exact Heq|].
  exfalso. pose proof (count_of_two M' M h Hdiff). specialize (Hle M). lia.
Qed.

(** ** The history window *)

Lemma push_history_cases name h :
  push_history name h = (h ++ [name])%list /\ length h < HISTORY_MAX_LENGTH
  \/ push_history name h = tail (h ++ [name])%list /\ HISTORY_MAX_LENGTH <= length h.
Proof.
  unfold push_history.
  destruct (Nat.ltb_spec HISTORY_MAX_LENGTH (length (h ++ [name])%list)) as [Hlt|Hge];
    rewrite length_app in *; simpl in *; [right | left]; split; auto; lia.
Qed.

Lemma push_history_length name h :
  length h <= HISTORY_MAX_LENGTH ->
  0 < length (push_history name h) <= HISTORY_MAX_LENGTH.
Proof.
  intros Hlen. unfold HISTORY_MAX_LENGTH in *.
  destruct (push_history_cases name h) as [[-> Hlt]|[-> Hge]];
    unfold HISTORY_MAX_LENGTH in *.
  - rewrite length_app. simpl. lia.
  - destruct h as [|x h]; simpl in *; [lia|]. rewrite length_app. simpl. lia.
Qed.

Lemma push_history_not_empty name h : push_history name h <> [].
Proof.
  destruct (push_history_cases name h) as [[-> _]|[-> Hge]].
  - destruct h; discriminate.
  - unfold HISTORY_MAX_LENGTH in Hge.
    destruct h as [|x [|y h]]; simpl in *; try lia. discriminate.
Qed.

Lemma ends_with_run_0 M h : ends_with_run M 0 h.
Proof. exists h. simpl. rewrite app_nil_r. reflexivity. Qed.

Lemma push_history_run M r h :
  S r <= HISTORY_MAX_LENGTH ->
  ends_with_run M r h -> ends_with_run M (S r) (push_history M h).
Proof.
  intros Hr [pre ->].
  assert (Hsnoc : ((pre ++ repeat M r) ++ [M])%list = (pre ++ repeat M (S r))%list).
  { rewrite <- app_assoc. f_equal. simpl. rewrite repeat_cons. reflexivity. }
  destruct (push_history_cases M (pre ++ repeat M r)%list) as [[-> _]|[-> Hge]];
    rewrite Hsnoc.
  - exists pre. reflexivity.
  - rewrite length_app, repeat_length in Hge.
    destruct pre as [|x pre]; simpl in Hge; [lia|].
    exists pre. reflexivity.
Qed.

(** ** The confidence condition, in integers *)

Lemma Zpos_of_nat l : 0 < l -> Zpos (Pos.of_nat l) = Z.of_nat l.
Proof.
  intros Hl. rewrite <- positive_nat_Z, Nat2Pos.id; [reflexivity | lia].
Qed.

Lemma threshold_reached count len :
  0 < len ->
  Qle_bool CONFIDENCE_THRESHOLD_PERCENT (proportion count len) = true
  <-> 3 * len <= 4 * count.
Proof.
  intros Hlen. unfold Qle_bool, proportion, CONFIDENCE_THRESHOLD_PERCENT. simpl.
  rewrite Zpos_of_nat by exact Hlen. rewrite Z.leb_le. lia.
Qed.

(** ** One stabilization update, case by case *)

Lemma update_recognition_state_unfold s name M n :
  let h := push_history name (recognition_history s) in
  most_common_1 (Counter h) = [(M, n)] ->
  update_recognition_state s name =
  if confident M n (length h) then
    if (stable_recognition_count s <? REQUIRED_STABLE_FRAMES)%Z then
      with_stabilization s (locked_in_person s) h (stable_recognition_count s + 1)
    else if negb (option_string_eqb (locked_in_person s) M) then
      with_stabilization s (Some M) h (stable_recognition_count s)
    else
      with_stabilization s (locked_in_person s) h (stable_recognition_count s)
  else
    if is_locked (locked_in_person s) then with_stabilization s None [] 0
    else with_stabilization s (locked_in_person s) h 0.
Proof.
  intros h Hmc. unfold update_recognition_state. fold h.
  destruct h as [|x h']; [discriminate|].
  rewrite Hmc. reflexivity.
Qed.

(** The most common name of the updated history always exists, so the
    update is one of the four assignments of the source. *)
Lemma update_recognition_state_most_common s name :
  let h := push_history name (recognition_history s) in
  exists M, most_common_1 (Counter h) = [(M, count_of M h)]
            /\ 0 < count_of M h
            /\ forall k, count_of k h <= count_of M h.
Proof. intros h. apply most_common_1_defined, push_history_not_empty. Qed.

(** What an update does to the three stabilization attributes; nothing
    else changes. *)
Lemma update_recognition_state_outcomes s name :
  let s' := update_recognition_state s name in
  let h := push_history name (recognition_history s) in
  let c := stable_recognition_count s in
  s' = with_stabilization s (locked_in_person s') (recognition_history s')
                          (stable_recognition_count s')
  /\ (recognition_history s' = h \/ recognition_history s' = [])
  /\ ((c < REQUIRED_STABLE_FRAMES /\ stable_recognition_count s' = c + 1)%Z
      \/ stable_recognition_count s' = c
      \/ stable_recognition_count s' = 0%Z).
Proof.
  intros s' h c. subst s'.
  destruct (update_recognition_state_most_common s name) as (M & Hmc & _).
  rewrite (update_recognition_state_unfold s name M _ Hmc). fold h. fold c.
  destruct (confident M _ _).
  - destruct (Z.ltb_spec c REQUIRED_STABLE_FRAMES).
    + simpl. auto 6.
    + destruct (negb _); simpl; auto 6.
  - destruct (is_locked _); simpl; auto 6.
Qed.

(** ** A run of one identity *)

Lemma ready_for_empty M : ready_for M [].
Proof.
  unfold ready_for, push_history. simpl. rewrite String.eqb_refl. simpl. lia.
Qed.

Lemma ready_for_run M h :
  length h <= HISTORY_MAX_LENGTH -> ends_with_run M 5 h -> ready_for M h.
Proof.
  intros Hlen Hrun. unfold ready_for.
  pose proof (push_history_length M h Hlen) as Hlen'.
  destruct (push_history_run M 5 h) as [pre Hpre]; [unfold HISTORY_MAX_LENGTH; lia | exact Hrun |].
  rewrite Hpre in *. rewrite count_of_app, count_of_repeat.
  unfold HISTORY_MAX_LENGTH in *. lia.
Qed.

Lemma ready_for_push M h :
  length h <= HISTORY_MAX_LENGTH ->
  ready_for M h -> ready_for M (push_history M h).
Proof.
  unfold ready_for. intros Hlen Hready.
  pose proof (push_history_length M h Hlen) as Hlen1.
  set (h1 := push_history M h) in *.
  destruct (push_history_cases M h1) as [[-> Hlt]|[-> Hge]].
  - rewrite length_app, count_of_app. simpl. rewrite String.eqb_refl. lia.
  - destruct h1 as [|x h1']; simpl in *; [lia|].
    rewrite length_app, count_of_app. simpl. rewrite String.eqb_refl.
    unfold HISTORY_MAX_LENGTH in *. destruct (String.eqb x M); lia.
Qed.

(** A confident update with the label [M] itself. *)
Lemma update_recognition_state_ready s M :
  is_sentinel M = false ->
  ready_for M (recognition_history s) ->
  let s' := update_recognition_state s M in
  let c := stable_recognition_count s in
  recognition_history s' = push_history M (recognition_history s)
  /\ ((c < REQUIRED_STABLE_FRAMES)%Z ->
      stable_recognition_count s' = (c + 1)%Z
      /\ locked_in_person s' = locked_in_person s)
  /\ ((REQUIRED_STABLE_FRAMES <= c)%Z ->
      stable_recognition_count s' = c /\ locked_in_person s' = Some M).
Proof.
  intros Hsent Hready s' c. subst s'. unfold ready_for in Hready.
  set (h := push_history M (recognition_history s)) in *.
  assert (Hpos : 0 < length h).
  { pose proof (push_history_not_empty M (recognition_history s)) as Hne.
    fold h in Hne. destruct h; [congruence | simpl; lia]. }
  assert (Hmc : most_common_1 (Counter h) = [(M, count_of M h)])
    by (apply most_common_1_majority; lia).
  rewrite (update_recognition_state_unfold s M M _ Hmc). fold h. fold c.
  assert (Hconf : confident M (count_of M h) (length h) = true).
  { unfold confident. rewrite Hsent. simpl. apply threshold_reached; assumption. }
  rewrite Hconf.
  destruct (Z.ltb_spec c REQUIRED_STABLE_FRAMES) as [Hlt|Hge].
  - simpl. repeat split; auto; lia.
  - destruct (locked_in_person s) as [l|] eqn:Hl; simpl.
    + destruct (String.eqb_spec l M) as [->|Hne]; simpl; rewrite ?Hl;
        repeat split; auto; lia.
    + repeat split; auto; lia.
Qed.

Lemma update_recognition_state_bounds s name :
  stabilization_bounds s -> stabilization_bounds (update_recognition_state s name).
Proof.
  intros [Hlen Hc].
  destruct (update_recognition_state_outcomes s name) as (_ & Hh & Hcount).
  pose proof (push_history_length name _ Hlen) as Hpush.
  split.
  - destruct Hh as [-> | ->]; simpl; lia.
  - unfold REQUIRED_STABLE_FRAMES in *. lia.
Qed.

Lemma feed_app s l1 l2 : feed s (l1 ++ l2)%list = feed (feed s l1) l2.
Proof. unfold feed. apply fold_left_app. Qed.

Lemma feed_bounds s labels :
  stabilization_bounds s -> stabilization_bounds (feed s labels).
Proof.
  revert s. induction labels as [|x labels IH]; intros s Hs; simpl; [exact Hs|].
  apply IH, update_recognition_state_bounds, Hs.
Qed.

(** Once locked on [M] with a full counter, further [M]s change nothing. *)
Lemma feed_ready_locked M n s :
  is_sentinel M = false ->
  length (recognition_history s) <= HISTORY_MAX_LENGTH ->
  ready_for M (recognition_history s) ->
  (REQUIRED_STABLE_FRAMES <= stable_recognition_count s)%Z ->
  locked_in_person s = Some M ->
  locked_in_person (feed s (repeat M n)) = Some M.
Proof.
  intros Hsent. revert s. induction n as [|n IH]; intros s Hlen Hready Hc Hl;
    simpl; [exact Hl|].
  destruct (update_recognition_state_ready s M Hsent Hready) as (Hh & _ & Hfull).
  destruct (Hfull Hc) as [Hc' Hl'].
  apply IH.
  - rewrite Hh. apply push_history_length, Hlen.
  - rewrite Hh. apply ready_for_push; assumption.
  - rewrite Hc'. exact Hc.
  - exact Hl'.
Qed.

(** From a history that is ready for [M], the counter climbs to
    [REQUIRED_STABLE_FRAMES] and the next [M] locks. *)
Lemma feed_ready_locks M n s :
  is_sentinel M = false ->
  length (recognition_history s) <= HISTORY_MAX_LENGTH ->
  ready_for M (recognition_history s) ->
  (REQUIRED_STABLE_FRAMES + 1 - stable_recognition_count s <= Z.of_nat n)%Z ->
  (stable_recognition_count s <= REQUIRED_STABLE_FRAMES)%Z ->
  locked_in_person (feed s (repeat M n)) = Some M.
Proof.
  intros Hsent. revert s. induction n as [|n IH]; intros s Hlen Hready Hn Hc.
  - lia.
  - simpl.
    destruct (update_recognition_state_ready s M Hsent Hready) as (Hh & Hclimb & Hfull).
    assert (Hlen' : length (recognition_history (update_recognition_state s M))
                    <= HISTORY_MAX_LENGTH)
      by (rewrite Hh; apply push_history_length, Hlen).
    assert (Hready' : ready_for M (recognition_history (update_recognition_state s M)))
      by (rewrite Hh; apply ready_for_push; assumption).
    destruct (Z.lt_ge_cases (stable_recognition_count s) REQUIRED_STABLE_FRAMES)
      as [Hlt|Hge].
    + destruct (Hclimb Hlt) as [Hc' _]. apply IH; try assumption; rewrite Hc'; lia.
    + destruct (Hfull Hge) as [Hc' Hl'].
      apply feed_ready_locked; try assumption. rewrite Hc'. exact Hge.
Qed.

(** Within five [M]s the history becomes ready for [M]: either an update
    cleared it, or it ends with five [M]s. *)
Lemma feed_gets_ready M k r s :
  r + k = 5 ->
  stabilization_bounds s ->
  ends_with_run M r (recognition_history s) ->
  exists j, j <= k /\ ready_for M (recognition_history (feed s (repeat M j))).
Proof.
  revert r s. induction k as [|k IH]; intros r s Hrk Hs Hrun.
  - exists 0. split; [lia|]. simpl. replace r with 5 in Hrun by lia.
    apply ready_for_run; [apply Hs | exact Hrun].
  - destruct (update_recognition_state_outcomes s M) as (_ & [Hh|Hh] & _).
    + destruct (IH (S r) (update_recognition_state s M)) as (j & Hj & Hready).
      * lia.
      * apply update_recognition_state_bounds, Hs.
      * rewrite Hh. apply push_history_run; [unfold HISTORY_MAX_LENGTH; lia | exact Hrun].
      * exists (S j). split; [lia | exact Hready].
    + exists 1. split; [lia|]. simpl. rewrite Hh. apply ready_for_empty.
Qed.

(** ** The other methods leave the stabilization bounds alone *)

Lemma mark_attendance_app s d name now write_error :
  let r := mark_attendance s d name now write_error in
  marked_app r = s
  \/ marked_app r = with_logged s name (now + timedelta_seconds LOG_COOLDOWN_SECONDS).
Proof.
  unfold mark_attendance.
  destruct (on_cooldown s name now); [left; reflexivity|].
  destruct (details_files d !! _) as [[e|details]|]; try (left; reflexivity).
  destruct write_error as [e|];
    repeat match goal with |- context [if ?b then _ else _] => destruct b end;
    simpl; auto.
Qed.

Lemma mark_attendance_bounds s d name now write_error :
  stabilization_bounds s ->
  stabilization_bounds (marked_app (mark_attendance s d name now write_error)).
Proof.
  intros [Hlen Hc].
  destruct (mark_attendance_app s d name now write_error) as [-> | ->].
  - split; assumption.
  - split; simpl; [lia | exact Hc].
Qed.

Lemma worker_pass_app t s p :
  worker_pass t s = Ok p ->
  pass_app p = s
  \/ exists s1, pass_app p = update_recognition_state s1 (fst (last_recognition_result s1))
                /\ recognition_history s1 = recognition_history s
                /\ stable_recognition_count s1 = stable_recognition_count s
                /\ locked_in_person s1 = locked_in_person s.
Proof.
  unfold worker_pass. intros Hp.
  destruct (raw_frame t) as [frame0|]; [|inversion Hp; left; reflexivity].
  destruct (detectMultiScale t) as [faces|e]; [|discriminate].
  inversion Hp; subst; clear Hp. right. simpl.
  destruct (dispatch_gate s _ t); eexists; (split; [reflexivity|]); simpl; auto.
Qed.

Section PipelineProperties.

Variables os_path_basename os_path_dirname : string -> string.

Local Abbreviation reachable := (reachable os_path_basename os_path_dirname).
Local Abbreviation run_recognition :=
  (_run_deepface_recognition os_path_basename os_path_dirname).

Lemma _run_deepface_recognition_app s found :
  exists r, run_recognition s found = with_last_recognition_result s r.
Proof.
  unfold _run_deepface_recognition.
  destruct found as [[|[|[|best more] rest]]|e]; try (eexists; reflexivity).
  destruct (negb _); eexists; reflexivity.
Qed.

Lemma reachable_bounds s : reachable s -> stabilization_bounds s.
Proof.
  induction 1 as [|s name _ IH|s found _ IH|s t p _ IH Hp|s d name now we _ IH|s b _ IH].
  - split; simpl; [unfold HISTORY_MAX_LENGTH | unfold REQUIRED_STABLE_FRAMES]; lia.
  - apply update_recognition_state_bounds, IH.
  - destruct (_run_deepface_recognition_app s found) as [r ->]. exact IH.
  - destruct (worker_pass_app t s p Hp) as [-> | (s1 & -> & Hh & Hc & _)]; [exact IH|].
    apply update_recognition_state_bounds. unfold stabilization_bounds.
    rewrite Hh, Hc. exact IH.
  - apply mark_attendance_bounds, IH.
  - exact IH.
Qed.

(** C3, as amended: from any reachable state and after any labels, ten
    labels in a row (or more) that all equal one identity [M], which is none
    of "Unknown", "Error" and "Searching...", leave [locked_in_person] equal
    to [M]. *)
Theorem ten_equal_labels_lock (s : App) (pre : list string) (M : string) (n : nat) :
  reachable s ->
  is_sentinel M = false ->
  10 <= n ->
  locked_in_person (feed s (pre ++ repeat M n)) = Some M.
Proof.
  intros Hreach Hsent Hn. rewrite feed_app.
  assert (Hs : stabilization_bounds (feed s pre))
    by (apply feed_bounds, reachable_bounds, Hreach).
  destruct (feed_gets_ready M 5 0 (feed s pre) eq_refl Hs (ends_with_run_0 M _))
    as (j & Hj & Hready).
  replace n with (j + (n - j)) by lia.
  rewrite repeat_app, feed_app.
  pose proof (feed_bounds _ (repeat M j) Hs) as [Hlen Hc].
  apply feed_ready_locks; try assumption; try apply Hc.
  unfold REQUIRED_STABLE_FRAMES in *. lia.
Qed.

(** C10: in every reachable state the stable-frame counter lies between 0
    and [REQUIRED_STABLE_FRAMES] = 4, and an update either adds one to a
    counter that is below 4, or leaves it as it is, or sets it to 0. *)
Theorem stable_count_in_range (s : App) :
  reachable s ->
  (0 <= stable_recognition_count s <= 4)%Z
  /\ forall name,
       let c := stable_recognition_count s in
       let c' := stable_recognition_count (update_recognition_state s name) in
       ((c < 4)%Z /\ c' = (c + 1)%Z) \/ c' = c \/ c' = 0%Z.
Proof.
  intros Hreach. split.
  - apply reachable_bounds in Hreach. apply Hreach.
  - intros name. apply (update_recognition_state_outcomes s name).
Qed.

End PipelineProperties.

(** ** The stabilization scenarios *)

(** C1, as amended: from the initial state, eight calls with the label "A"
    bring the counter to 4 on the fourth call, with nobody locked in yet,
    and lock "A" in on the fifth call, where it stays. The list gives the
    counter and [locked_in_person] after each of the eight calls. *)
Theorem repeated_label_locks_on_fifth_call :
  map (fun n =>
         let s := feed initial_app (repeat "A" n) in
         (stable_recognition_count s, locked_in_person s))
      (seq 1 8)
  = [(1%Z, None); (2%Z, None); (3%Z, None); (4%Z, None);
     (4%Z, Some "A"); (4%Z, Some "A"); (4%Z, Some "A"); (4%Z, Some "A")].
Proof. vm_compute. reflexivity. Qed.

(** C1 as stated fails: the counter first reaches 4 on the fourth call, and
    after that call nobody is locked in. *)
Lemma fourth_call_does_not_lock :
  stable_recognition_count (feed initial_app (repeat "A" 3)) = 3%Z
  /\ stable_recognition_count (feed initial_app (repeat "A" 4)) = 4%Z
  /\ locked_in_person (feed initial_app (repeat "A" 4)) = None.
Proof. vm_compute. repeat split. Qed.

(** C3 as stated fails: after eight "Unknown", eight "A" in a row fill the
    history and leave the counter at 3, with nobody locked in. *)
Lemma eight_equal_labels_do_not_lock :
  let s := feed initial_app (repeat "Unknown" 8 ++ repeat "A" 8) in
  is_sentinel "A" = false
  /\ recognition_history s = repeat "A" 8
  /\ stable_recognition_count s = 3%Z
  /\ locked_in_person s = None.
Proof. vm_compute. repeat split. Qed.

(** Nine are not enough either, so ten is the least number. *)
Lemma nine_equal_labels_do_not_lock :
  locked_in_person (feed initial_app (repeat "Unknown" 8 ++ repeat "A" 9)) = None.
Proof. vm_compute. reflexivity. Qed.

(** C4: when the confidence condition fails on the updated history, because
    its most common name is a sentinel or fills less than 0.75 of it, the
    counter is 0 after the update; and if somebody was locked in before,
    then afterwards [locked_in_person] is [None] and the history is empty.
    Locked in is what the code tests: [locked_in_person] is a name, not
    [None] and not the empty string. *)
Theorem failed_confidence_resets (s : App) (name M : string) (count : nat) :
  let h := push_history name (recognition_history s) in
  let s' := update_recognition_state s name in
  most_common_1 (Counter h) = [(M, count)] ->
  is_sentinel M = true
  \/ (proportion count (length h) < CONFIDENCE_THRESHOLD_PERCENT)%Q ->
  stable_recognition_count s' = 0%Z
  /\ (is_locked (locked_in_person s) = true ->
      locked_in_person s' = None /\ recognition_history s' = []).
Proof.
  intros h s' Hmc Hfail. subst s'.
  rewrite (update_recognition_state_unfold s name M count Hmc). fold h.
  assert (Hconf : confident M count (length h) = false).
  { unfold confident. destruct Hfail as [-> | Hlt]; [reflexivity|].
    destruct (Qle_bool _ _) eqn:Hle; [|apply andb_false_r].
    apply Qle_bool_iff in Hle. exfalso. exact (Qlt_not_le _ _ Hlt Hle). }
  rewrite Hconf.
  destruct (is_locked (locked_in_person s)); simpl; split; auto; discriminate.
Qed.

Lemma failed_confidence_resets_witness :
  let s := feed initial_app (repeat "A" 8 ++ ["Unknown"; "Unknown"]) in
  let h := push_history "Unknown" (recognition_history s) in
  let s' := update_recognition_state s "Unknown" in
  (locked_in_person s = Some "A"
   /\ most_common_1 (Counter h) = [("A", 5)]
   /\ (proportion 5 (length h) < CONFIDENCE_THRESHOLD_PERCENT)%Q)
  /\ stable_recognition_count s' = 0%Z
  /\ (is_locked (locked_in_person s) = true ->
      locked_in_person s' = None /\ recognition_history s' = []).
Proof.
  split.
  - vm_compute. repeat split.
  - apply (failed_confidence_resets
             (feed initial_app (repeat "A" 8 ++ ["Unknown"; "Unknown"]))
             "Unknown" "A" 5).
    + vm_compute. reflexivity.
    + right. vm_compute. reflexivity.
Defined.

(** ** The attendance gate *)

(** A call that wrote: it was not on cooldown, [to_csv] returned, and the
    attributes and the disk are the ones of the last lines of the [try]
    block. *)
Lemma mark_attendance_written s d name now write_error target entry :
  let r := mark_attendance s d name now write_error in
  marked_written r = Some (target, entry) ->
  on_cooldown s name now = false
  /\ write_error = None
  /\ marked_app r = with_logged s name (now + timedelta_seconds LOG_COOLDOWN_SECONDS)
  /\ marked_disk r = to_csv d target (needs_header d target) entry
  /\ (target = student_attendance_file \/ target = faculty_attendance_file).
Proof.
  unfold mark_attendance.
  destruct (on_cooldown s name now); [discriminate|].
  destruct (details_files d !! _) as [[e|details]|]; try discriminate.
  destruct write_error as [e|];
    repeat match goal with |- context [if ?b then _ else _] => destruct b end;
    simpl; try discriminate;
    intros Hw; inversion Hw; subst; auto 6.
Qed.

Lemma on_cooldown_after_logging s name until now other :
  (now < until)%Z ->
  on_cooldown (with_logged s name until) name now = true
  /\ (on_cooldown s other now = true -> name <> other ->
      on_cooldown (with_logged s name until) other now = true).
Proof.
  intros Hlt. unfold on_cooldown, with_logged. simpl. split.
  - rewrite lookup_insert_eq. apply Z.ltb_lt, Hlt.
  - intros Hother Hne. rewrite lookup_insert_ne by exact Hne. exact Hother.
Qed.

(** C5: when a call of [mark_attendance] wrote its entry, a second call for
    the same name before the stored expiry, [LOG_COOLDOWN_SECONDS] = 300
    seconds after the first, returns at the cooldown test: it writes
    nothing, logs no message and leaves the attributes and the disk as the
    first call left them. The disk after both calls holds the one entry
    of the first call. *)
Theorem second_commit_within_cooldown_is_noop
    (s : App) (d : Disk) (name : string) (now1 now2 : Z)
    (write_error1 write_error2 : option Exception) (target : string) (entry : Row) :
  let r1 := mark_attendance s d name now1 write_error1 in
  let r2 := mark_attendance (marked_app r1) (marked_disk r1) name now2 write_error2 in
  marked_written r1 = Some (target, entry) ->
  (now2 < now1 + timedelta_seconds 300)%Z ->
  r2 = mkMarked (marked_app r1) (marked_disk r1) [] None
  /\ marked_disk r2 = to_csv d target (needs_header d target) entry.
Proof.
  intros r1 r2 Hw Hnow. subst r2.
  destruct (mark_attendance_written s d name now1 write_error1 target entry Hw)
    as (_ & _ & Happ & Hdisk & _).
  fold r1 in Happ, Hdisk.
  assert (Hcool : on_cooldown (marked_app r1) name now2 = true).
  { rewrite Happ.
    destruct (on_cooldown_after_logging s name _ now2 name Hnow) as [Hon _].
    exact Hon. }
  assert (Hnoop : mark_attendance (marked_app r1) (marked_disk r1) name now2 write_error2
                  = mkMarked (marked_app r1) (marked_disk r1) [] None)
    by (unfold mark_attendance at 1; rewrite Hcool; reflexivity).
  rewrite Hnoop. split; [reflexivity | exact Hdisk].
Qed.

(** C6: a call of [mark_attendance] for a name that has no entry of
    [recently_logged] still in the future, whose [details.json] gives the
    user type Student or Faculty, and whose [to_csv] returns, appends to the
    attendance file of that user type the one row of the name, the
    department, the date and the time (after the header when the file was
    missing or empty), touches no other file, sets [recently_logged[name]]
    to now plus 300 seconds, and leaves [locked_in_person] [None] and the
    history empty. *)
Theorem commit_without_cooldown_logs
    (s : App) (d : Disk) (name : string) (now : Z)
    (fields : gmap string string) (user_type : string) :
  let r := mark_attendance s d name now None in
  let target :=
    if String.eqb user_type "Student" then student_attendance_file
    else faculty_attendance_file in
  let entry : Row :=
    [Text name; Text (default "N/A" (fields !! "department"));
     Strftime "%Y-%m-%d" now; Strftime "%H:%M:%S" now] in
  (forall until, recently_logged s !! name = Some until -> (until <= now)%Z) ->
  details_files d !! replace_char " "%char "_"%char name = Some (Json fields) ->
  fields !! "user_type" = Some user_type ->
  user_type = "Student" \/ user_type = "Faculty" ->
  marked_written r = Some (target, entry)
  /\ csv_files (marked_disk r) !! target
     = Some (default [] (csv_files d !! target)
             ++ (if needs_header d target then [columns] else []) ++ [entry])%list
  /\ (forall other, other <> target ->
        csv_files (marked_disk r) !! other = csv_files d !! other)
  /\ recently_logged (marked_app r) !! name = Some (now + 300 * 1000000)%Z
  /\ locked_in_person (marked_app r) = None
  /\ recognition_history (marked_app r) = [].
Proof.
  intros r target entry Hlive Hdetails Htype Hvalid.
  assert (Hcool : on_cooldown s name now = false).
  { unfold on_cooldown. destruct (recently_logged s !! name) as [until|] eqn:Hl;
      [|reflexivity]. apply Z.ltb_ge, Hlive. reflexivity. }
  subst r. unfold mark_attendance. rewrite Hcool, Hdetails, Htype. simpl.
  subst target entry.
  destruct Hvalid as [-> | ->]; simpl;
    (split; [reflexivity|]);
    (split; [apply lookup_insert_eq|]);
    (split; [intros other Hne; apply lookup_insert_ne; congruence|]);
    (split; [apply lookup_insert_eq|]); split; reflexivity.
Qed.

(** C7: when [to_csv] raises inside [mark_attendance], the attributes of
    [self] are what they were before the call, among them the entry of
    [recently_logged] for the name, [locked_in_person] and the history;
    nothing is written; and when the call went as far as the write, the same
    call made again, at that time or later, with a [to_csv] that returns,
    writes the entry. *)
Theorem failed_write_keeps_cooldown
    (s : App) (d : Disk) (name : string) (now : Z) (e : Exception) :
  let r := mark_attendance s d name now (Some e) in
  marked_app r = s
  /\ marked_disk r = d
  /\ marked_written r = None
  /\ forall target now',
       marked_messages r = [ErrorWriting target e] ->
       (now <= now')%Z ->
       exists entry,
         marked_written (mark_attendance (marked_app r) (marked_disk r) name now' None)
         = Some (target, entry).
Proof.
  intros r. subst r. unfold mark_attendance.
  destruct (on_cooldown s name now) eqn:Hcool; simpl.
  { repeat split. intros target now' Hm. discriminate. }
  destruct (details_files d !! _) as [[e'|details]|] eqn:Hdetails; simpl;
    try (repeat split; intros target now' Hm; discriminate).
  assert (Hretry : forall now', (now <= now')%Z -> on_cooldown s name now' = false).
  { intros now' Hle. unfold on_cooldown in *.
    destruct (recently_logged s !! name) as [until|]; [|reflexivity].
    apply Z.ltb_ge. apply Z.ltb_ge in Hcool. lia. }
  destruct (String.eqb _ "Student") eqn:Hst; simpl.
  { repeat split. intros target now' Hm Hle. inversion Hm; subst.
    rewrite (Hretry now' Hle), Hdetails, Hst. eexists. reflexivity. }
  destruct (String.eqb _ "Faculty") eqn:Hfa; simpl.
  { repeat split. intros target now' Hm Hle. inversion Hm; subst.
    rewrite (Hretry now' Hle), Hdetails, Hst, Hfa. eexists. reflexivity. }
  repeat split. intros target now' Hm. discriminate.
Qed.

(** ** The frame-processing worker *)

Lemma face_coords_of_is_Some faces :
  is_Some (face_coords_of faces) <-> faces <> [].
Proof.
  destruct faces as [|r rest]; simpl.
  - split; [intros [x Hx]; discriminate | congruence].
  - destruct (max_by_area r rest) as [[[x y] w] h]. split; [discriminate | eauto].
Qed.

(** C9: a pass of the worker hands a frame to the recognition executor only
    if the database is ready, the detector found a face in this pass, no
    recognition task is in flight (there is no future, or [running()] is
    false), and the time since [last_recognition_time] is at least
    [RECOGNITION_INTERVAL] = 0.75 seconds; and when it does,
    [last_recognition_time] is the current time afterwards. *)
Theorem dispatch_only_through_gate (t : Tick) (s : App) (p : Pass) (frame : Frame) :
  worker_pass t s = Ok p ->
  pass_submitted p = Some frame ->
  database_ready s = true
  /\ (exists faces, detectMultiScale t = Ok faces /\ faces <> [])
  /\ (recognition_future s = None \/ future_running t = false)
  /\ (75 # 100 <= monotonic t - last_recognition_time s)%Q
  /\ last_recognition_time (pass_app p) = monotonic t.
Proof.
  unfold worker_pass. intros Hp Hsub.
  destruct (raw_frame t) as [frame0|]; [|inversion Hp; subst; discriminate].
  destruct (detectMultiScale t) as [faces|e]; [|discriminate].
  inversion Hp; subst; clear Hp. simpl in Hsub.
  destruct (dispatch_gate s (face_coords_of faces) t) eqn:Hgate; [|discriminate].
  unfold dispatch_gate in Hgate.
  apply andb_true_iff in Hgate as [Hgate Htime].
  apply andb_true_iff in Hgate as [Hgate Hrun].
  apply andb_true_iff in Hgate as [Hready Hface].
  split; [exact Hready|]. split.
  { exists faces. split; [reflexivity|].
    apply face_coords_of_is_Some. apply bool_decide_eq_true in Hface. exact Hface. }
  split.
  { unfold is_recognition_running in Hrun.
    destruct (recognition_future s); [right | left; reflexivity].
    apply negb_true_iff, Hrun. }
  split.
  { apply negb_true_iff in Htime. apply Qlt_le_weak, Qnot_le_lt.
    intros Hle. apply Qle_bool_iff in Hle. unfold RECOGNITION_INTERVAL in Htime.
    congruence. }
  simpl.
  destruct (update_recognition_state_outcomes
              (with_dispatch s (monotonic t) (mkFuture (cv2_flip frame0)))
              (fst (last_recognition_result s))) as (-> & _).
  reflexivity.
Qed.

(** The gate is strict in the time: a pass that comes exactly
    [RECOGNITION_INTERVAL] after the last dispatch submits nothing. *)
Lemma no_dispatch_at_exactly_the_interval :
  let s := with_database_ready initial_app true in
  let t := mkTick true (Some [[0; 1]%Z]) (Ok [(0, 0, 60, 60)%Z]) (75 # 100) false false None in
  pass_submitted <$> (match worker_pass t s with Ok p => Some p | Raise _ => None end)
  = Some None.
Proof. vm_compute. reflexivity. Qed.

Section WorkerProperties.

Variables os_path_basename os_path_dirname : string -> string.

Local Abbreviation worker := (_frame_processing_worker os_path_basename os_path_dirname).
Local Abbreviation run_recognition :=
  (_run_deepface_recognition os_path_basename os_path_dirname).

(** C2, as amended: when [detectMultiScale] raises in a pass of the worker,
    nothing in the loop catches the exception: it leaves
    [_frame_processing_worker], which ends there. That pass submits no
    recognition task, makes no stabilization update and puts no frame, so
    the attributes of [self], [last_recognition_result] among them, are the
    ones the pass found; no later pass runs. *)
Theorem detector_exception_ends_worker
    (t : Tick) (rest : list Tick) (r : WorkerRun) (frame : Frame) (e : Exception) :
  app_running t = true ->
  raw_frame t = Some frame ->
  detectMultiScale t = Raise e ->
  worker (t :: rest) r
  = mkWorkerRun (Propagated e)
                (recognition_thread os_path_basename os_path_dirname (run_app r) t)
                (run_passes r) (run_submitted r) (run_put r).
Proof.
  intros Hrun Hframe Hdetect. simpl. rewrite Hrun. simpl.
  unfold worker_pass. rewrite Hframe, Hdetect. reflexivity.
Qed.

(** C8: whatever [DeepFace.find] does, the recognition task stores a
    result and raises nothing. A best match nearer than
    [DEEPFACE_DISTANCE_THRESHOLD] = 0.40 gives the name of its folder, with
    underscores turned into spaces, and its distance; a best match at 0.40
    or farther gives "Unknown" and its distance; a result that is empty, or
    not a list, gives "Unknown" and infinity; so does an exception. No other
    attribute changes. *)
Theorem recognition_result_is_normalized (s : App) (found : Result FindReturn) :
  let s' := run_recognition s found in
  (forall best more rest,
      found = Ok (ListOf ((best :: more) :: rest)) ->
      (distance best < 40 # 100)%Q ->
      last_recognition_result s'
      = (replace_char "_"%char " "%char
           (os_path_basename (os_path_dirname (identity best))),
         Finite (distance best)))
  /\ (forall best more rest,
      found = Ok (ListOf ((best :: more) :: rest)) ->
      (40 # 100 <= distance best)%Q ->
      last_recognition_result s' = ("Unknown", Finite (distance best)))
  /\ (found = Ok NotAList \/ found = Ok (ListOf [])
      \/ (exists rest, found = Ok (ListOf ([] :: rest))) ->
      last_recognition_result s' = ("Unknown", Infinity))
  /\ (forall e, found = Raise e ->
      last_recognition_result s' = ("Unknown", Infinity))
  /\ s' = with_last_recognition_result s (last_recognition_result s').
Proof.
  intros s'. subst s'. unfold _run_deepface_recognition.
  repeat split.
  - intros best more rest -> Hlt.
    destruct (Qle_bool DEEPFACE_DISTANCE_THRESHOLD (distance best)) eqn:Hle;
      [|reflexivity].
    apply Qle_bool_iff in Hle. exfalso. exact (Qlt_not_le _ _ Hlt Hle).
  - intros best more rest -> Hge.
    apply Qle_bool_iff in Hge. unfold DEEPFACE_DISTANCE_THRESHOLD.
    rewrite Hge. reflexivity.
  - intros [-> | [-> | [rest ->]]]; reflexivity.
  - intros e ->. reflexivity.
  - destruct found as [[|[|[|best more] rest]]|e]; try reflexivity.
    destruct (negb _); reflexivity.
Qed.

End WorkerProperties.

(** ** The properties at concrete inputs *)

(** C2 as stated fails: the detector raises in the first of two passes; the
    exception leaves the worker before any pass is completed and the second
    frame is never processed. Had the detector reported no face instead,
    the worker would have completed both passes and put two frames. *)
Lemma detector_exception_is_not_absorbed :
  let raising :=
    mkTick true (Some [[0; 1]%Z]) (Raise (PyException "cv2.error")) 1 false false None in
  let no_face := mkTick true (Some [[0; 1]%Z]) (Ok []) 1 false false None in
  let next := mkTick true (Some [[2; 3]%Z]) (Ok []) 2 false false None in
  let worker := _frame_processing_worker (fun p => p) (fun p => p) in
  let r := worker [raising; next] (start_worker initial_app) in
  let r' := worker [no_face; next] (start_worker initial_app) in
  (run_status r = Propagated (PyException "cv2.error")
   /\ run_passes r = 0 /\ run_put r = [])
  /\ (run_status r' = Looping /\ run_passes r' = 2 /\ length (run_put r') = 2).
Proof. vm_compute. repeat split. Qed.

Lemma detector_exception_ends_worker_witness :
  let t := mkTick true (Some [[0; 1]%Z]) (Raise (PyException "cv2.error")) 1 false false None in
  let next := mkTick true (Some [[2; 3]%Z]) (Ok []) 2 false false None in
  _frame_processing_worker (fun p => p) (fun p => p) [t; next] (start_worker initial_app)
  = mkWorkerRun (Propagated (PyException "cv2.error")) initial_app 0 [] [].
Proof.
  intros t next.
  exact (detector_exception_ends_worker (fun p => p) (fun p => p) t [next]
           (start_worker initial_app) [[0; 1]%Z] (PyException "cv2.error")
           eq_refl eq_refl eq_refl).
Defined.

Lemma ten_equal_labels_lock_witness :
  let s := update_recognition_state initial_app "B" in
  (reachable (fun p => p) (fun p => p) s /\ is_sentinel "A" = false /\ 10 <= 10)
  /\ locked_in_person (feed s (repeat "Unknown" 8 ++ repeat "A" 10)) = Some "A".
Proof.
  intros s.
  assert (Hs : reachable (fun p => p) (fun p => p) s)
    by (apply reachable_update, reachable_initial).
  split.
  - split; [exact Hs | split; [reflexivity | apply le_n]].
  - exact (ten_equal_labels_lock (fun p => p) (fun p => p) s (repeat "Unknown" 8) "A" 10
             Hs eq_refl (le_n 10)).
Defined.

Lemma stable_count_in_range_witness :
  let s := update_recognition_state initial_app "A" in
  reachable (fun p => p) (fun p => p) s
  /\ (0 <= stable_recognition_count s <= 4)%Z
  /\ forall name,
       let c := stable_recognition_count s in
       let c' := stable_recognition_count (update_recognition_state s name) in
       ((c < 4)%Z /\ c' = (c + 1)%Z) \/ c' = c \/ c' = 0%Z.
Proof.
  intros s.
  assert (Hs : reachable (fun p => p) (fun p => p) s)
    by (apply reachable_update, reachable_initial).
  split; [exact Hs|].
  exact (stable_count_in_range (fun p => p) (fun p => p) s Hs).
Defined.

Lemma dispatch_only_through_gate_witness :
  let s := with_database_ready initial_app true in
  let t := mkTick true (Some [[0; 1]%Z]) (Ok [(0, 0, 60, 60)%Z]) 1 false false None in
  exists p,
    worker_pass t s = Ok p
    /\ pass_submitted p = Some [[1; 0]%Z]
    /\ database_ready s = true
    /\ (exists faces, detectMultiScale t = Ok faces /\ faces <> [])
    /\ (recognition_future s = None \/ future_running t = false)
    /\ (75 # 100 <= monotonic t - last_recognition_time s)%Q
    /\ last_recognition_time (pass_app p) = monotonic t.
Proof.
  intros s t. eexists. split; [reflexivity|]. split; [reflexivity|].
  exact (dispatch_only_through_gate t s _ [[1; 0]%Z] eq_refl eq_refl).
Defined.

Lemma recognition_result_is_normalized_witness :
  let near := Ok (ListOf [[mkMatch "John_Doe" (25 # 100)]]) in
  let far := Ok (ListOf [[mkMatch "John_Doe" (40 # 100)]]) in
  let run := _run_deepface_recognition (fun p => p) (fun p => p) initial_app in
  last_recognition_result (run near) = ("John Doe", Finite (25 # 100))
  /\ last_recognition_result (run far) = ("Unknown", Finite (40 # 100))
  /\ last_recognition_result (run (Ok (ListOf []))) = ("Unknown", Infinity)
  /\ last_recognition_result (run (Raise (PyException "ValueError")))
     = ("Unknown", Infinity).
Proof.
  intros near far run.
  split; [|split; [|split]].
  - destruct (recognition_result_is_normalized (fun p => p) (fun p => p) initial_app near)
      as (Hnear & _).
    exact (Hnear _ _ _ eq_refl eq_refl).
  - destruct (recognition_result_is_normalized (fun p => p) (fun p => p) initial_app far)
      as (_ & Hfar & _).
    apply (Hfar _ _ _ eq_refl). discriminate.
  - destruct (recognition_result_is_normalized (fun p => p) (fun p => p) initial_app
                (Ok (ListOf []))) as (_ & _ & Hempty & _).
    apply Hempty. right. left. reflexivity.
  - destruct (recognition_result_is_normalized (fun p => p) (fun p => p) initial_app
                (Raise (PyException "ValueError"))) as (_ & _ & _ & Hraise & _).
    exact (Hraise _ eq_refl).
Defined.

Lemma second_commit_within_cooldown_is_noop_witness :
  let d := mkDisk {["Bob_Lee" := Json {["user_type" := "Student"]}]} ∅ in
  let entry : Row :=
    [Text "Bob Lee"; Text "N/A"; Strftime "%Y-%m-%d" 0; Strftime "%H:%M:%S" 0] in
  let r1 := mark_attendance initial_app d "Bob Lee" 0 None in
  let r2 := mark_attendance (marked_app r1) (marked_disk r1) "Bob Lee" 299999999 None in
  (marked_written r1 = Some (student_attendance_file, entry)
   /\ (299999999 < 0 + timedelta_seconds 300)%Z)
  /\ r2 = mkMarked (marked_app r1) (marked_disk r1) [] None
  /\ marked_disk r2 = to_csv d student_attendance_file
                             (needs_header d student_attendance_file) entry.
Proof.
  intros d entry r1 r2.
  assert (Hw : marked_written r1 = Some (student_attendance_file, entry))
    by (vm_compute; reflexivity).
  assert (Hnow : (299999999 < 0 + timedelta_seconds 300)%Z)
    by (vm_compute; reflexivity).
  split; [split; assumption|].
  exact (second_commit_within_cooldown_is_noop initial_app d "Bob Lee" 0 299999999
           None None student_attendance_file entry Hw Hnow).
Defined.

Lemma commit_without_cooldown_logs_witness :
  let d := mkDisk {["Bob" := Json {["user_type" := "Faculty"]}]} ∅ in
  let r := mark_attendance initial_app d "Bob" 7 None in
  let entry : Row :=
    [Text "Bob"; Text "N/A"; Strftime "%Y-%m-%d" 7; Strftime "%H:%M:%S" 7] in
  marked_written r = Some (faculty_attendance_file, entry)
  /\ csv_files (marked_disk r) !! faculty_attendance_file = Some [columns; entry]
  /\ recently_logged (marked_app r) !! "Bob" = Some 300000007%Z
  /\ locked_in_person (marked_app r) = None
  /\ recognition_history (marked_app r) = [].
Proof.
  intros d r entry.
  destruct (commit_without_cooldown_logs initial_app d "Bob" 7
              {["user_type" := "Faculty"]} "Faculty")
    as (Hw & Hcsv & _ & Hcool & Hlock & Hhist).
  - intros expiry Hl. vm_compute in Hl. discriminate.
  - vm_compute. reflexivity.
  - vm_compute. reflexivity.
  - right. reflexivity.
  - repeat split; assumption.
Defined.

Lemma failed_write_keeps_cooldown_witness :
  let d := mkDisk {["Bob" := Json {["user_type" := "Student"]}]} ∅ in
  let e := PyException "PermissionError" in
  let r := mark_attendance initial_app d "Bob" 7 (Some e) in
  marked_app r = initial_app
  /\ exists entry,
       marked_written (mark_attendance (marked_app r) (marked_disk r) "Bob" 7 None)
       = Some (student_attendance_file, entry).
Proof.
  intros d e r.
  destruct (failed_write_keeps_cooldown initial_app d "Bob" 7 e)
    as (Happ & _ & _ & Hretry).
  split; [exact Happ|].
  apply (Hretry student_attendance_file 7%Z).
  - vm_compute. reflexivity.
  - apply Z.le_refl.
Defined.

(** * Further properties of the pipeline *)

(** ** The stabilization update for any label *)

(** An update after which a name [M] that is no sentinel fills three
    quarters of the history, whatever the label was. *)
Lemma update_recognition_state_majority s name M :
  is_sentinel M = false ->
  let h := push_history name (recognition_history s) in
  3 * length h <= 4 * count_of M h ->
  let s' := update_recognition_state s name in
  let c := stable_recognition_count s in
  recognition_history s' = h
  /\ ((c < REQUIRED_STABLE_FRAMES)%Z ->
      stable_recognition_count s' = (c + 1)%Z
      /\ locked_in_person s' = locked_in_person s)
  /\ ((REQUIRED_STABLE_FRAMES <= c)%Z ->
      stable_recognition_count s' = c /\ locked_in_person s' = Some M).
Proof.
  intros Hsent h Hmaj s' c. subst s'.
  assert (Hpos : 0 < length h).
  { pose proof (push_history_not_empty name (recognition_history s)) as Hne.
    fold h in Hne. destruct h; [congruence | simpl; lia]. }
  assert (Hmc : most_common_1 (Counter h) = [(M, count_of M h)])
    by (apply most_common_1_majority; lia).
  rewrite (update_recognition_state_unfold s name M _ Hmc). fold h. fold c.
  assert (Hconf : confident M (count_of M h) (length h) = true).
  { unfold confident. rewrite Hsent. simpl. apply threshold_reached; assumption. }
  rewrite Hconf.
  destruct (Z.ltb_spec c REQUIRED_STABLE_FRAMES) as [Hlt|Hge].
  - simpl. repeat split; auto; lia.
  - destruct (locked_in_person s) as [l|] eqn:Hl; simpl.
    + destruct (String.eqb_spec l M) as [->|Hne]; simpl; rewrite ?Hl;
        repeat split; auto; lia.
    + repeat split; auto; lia.
Qed.

(** Where [locked_in_person] can come from in an update: it stays, it
    becomes [None], or it becomes a name that is no sentinel, when the
    counter was full. *)
Lemma update_recognition_state_locked s name :
  let s' := update_recognition_state s name in
  locked_in_person s' = locked_in_person s
  \/ locked_in_person s' = None
  \/ exists M, locked_in_person s' = Some M /\ is_sentinel M = false
               /\ (REQUIRED_STABLE_FRAMES <= stable_recognition_count s)%Z.
Proof.
  intros s'. subst s'.
  destruct (update_recognition_state_most_common s name) as (M & Hmc & _).
  rewrite (update_recognition_state_unfold s name M _ Hmc).
  destruct (confident M _ _) eqn:Hconf.
  - destruct (Z.ltb_spec (stable_recognition_count s) REQUIRED_STABLE_FRAMES).
    + left. reflexivity.
    + destruct (negb _); [|left; reflexivity].
      right. right. exists M. simpl. repeat split; [|assumption].
      unfold confident in Hconf. apply andb_true_iff in Hconf as [Hs _].
      apply negb_true_iff, Hs.
  - destruct (is_locked _); simpl; auto.
Qed.

(** The update reads and writes the three stabilization attributes only. *)
Lemma update_recognition_state_same s1 s2 name :
  locked_in_person s1 = locked_in_person s2 ->
  recognition_history s1 = recognition_history s2 ->
  stable_recognition_count s1 = stable_recognition_count s2 ->
  locked_in_person (update_recognition_state s1 name)
  = locked_in_person (update_recognition_state s2 name)
  /\ recognition_history (update_recognition_state s1 name)
     = recognition_history (update_recognition_state s2 name)
  /\ stable_recognition_count (update_recognition_state s1 name)
     = stable_recognition_count (update_recognition_state s2 name).
Proof.
  intros Hl Hh Hc.
  destruct (update_recognition_state_most_common s1 name) as (M & Hmc & _).
  rewrite (update_recognition_state_unfold s1 name M _ Hmc).
  rewrite Hh in Hmc.
  rewrite (update_recognition_state_unfold s2 name M _ Hmc).
  rewrite Hl, Hh, Hc.
  repeat match goal with |- context [if ?b then _ else _] => destruct b end;
    simpl; auto.
Qed.

Lemma update_recognition_state_frame s name :
  let s' := update_recognition_state s name in
  database_ready s' = database_ready s
  /\ recently_logged s' = recently_logged s
  /\ last_recognition_result s' = last_recognition_result s
  /\ last_recognition_time s' = last_recognition_time s
  /\ recognition_future s' = recognition_future s.
Proof.
  intros s'. subst s'.
  destruct (update_recognition_state_outcomes s name) as (-> & _).
  simpl. auto.
Qed.

(** Ten equal labels lock, from any state within the bounds. *)
Lemma feed_repeat_locks s M n :
  stabilization_bounds s ->
  is_sentinel M = false ->
  10 <= n ->
  locked_in_person (feed s (repeat M n)) = Some M.
Proof.
  intros Hs Hsent Hn.
  destruct (feed_gets_ready M 5 0 s eq_refl Hs (ends_with_run_0 M _))
    as (j & Hj & Hready).
  replace n with (j + (n - j)) by lia.
  rewrite repeat_app, feed_app.
  pose proof (feed_bounds _ (repeat M j) Hs) as [Hlen Hc].
  apply feed_ready_locks; try assumption; try apply Hc.
  unfold REQUIRED_STABLE_FRAMES in *. lia.
Qed.

Section StabilizationProperties.

Variables os_path_basename os_path_dirname : string -> string.

Local Abbreviation reachable := (reachable os_path_basename os_path_dirname).

(** X1: in every reachable state the history holds at most
    [HISTORY_MAX_LENGTH] = 8 labels, and an update leaves either the empty
    history or the last eight labels of the old history followed by the new
    label. *)
Theorem history_is_a_window_of_eight (s : App) (name : string) :
  reachable s ->
  let h := recognition_history s in
  let h' := recognition_history (update_recognition_state s name) in
  length h <= 8
  /\ (h' = [] \/ h' = skipn (length h + 1 - 8) (h ++ [name])%list).
Proof.
  intros Hreach h h'. subst h h'.
  destruct (reachable_bounds _ _ s Hreach) as [Hlen _].
  unfold HISTORY_MAX_LENGTH in Hlen. split; [exact Hlen|].
  destruct (update_recognition_state_outcomes s name) as (_ & [-> | ->] & _);
    [right | left; reflexivity].
  destruct (push_history_cases name (recognition_history s)) as [[-> Hlt]|[-> Hge]];
    unfold HISTORY_MAX_LENGTH in *.
  - replace (_ + 1 - 8) with 0 by lia. reflexivity.
  - replace (_ + 1 - 8) with 1 by lia. reflexivity.
Qed.

Lemma reachable_no_sentinel (s : App) (M : string) :
  reachable s ->
  locked_in_person s = Some M ->
  is_sentinel M = false.
Proof.
  intros Hreach. revert M.
  induction Hreach as [|s name _ IH|s found _ IH|s t p _ IH Hp|s d name now we _ IH|s b _ IH];
    intros M HM.
  - discriminate.
  - destruct (update_recognition_state_locked s name) as [Heq|[Heq|(M' & Heq & Hs & _)]];
      rewrite Heq in HM.
    + apply IH, HM.
    + discriminate.
    + inversion HM; subst. exact Hs.
  - destruct (_run_deepface_recognition_app os_path_basename os_path_dirname s found)
      as [r Hr].
    rewrite Hr in HM. apply IH, HM.
  - destruct (worker_pass_app t s p Hp) as [Heq | (s1 & Heq & Hh & Hc & Hl)];
      rewrite Heq in HM; [apply IH, HM|].
    destruct (update_recognition_state_locked s1 (fst (last_recognition_result s1)))
      as [Heq'|[Heq'|(M' & Heq' & Hs & _)]]; rewrite Heq' in HM.
    + rewrite Hl in HM. apply IH, HM.
    + discriminate.
    + inversion HM; subst. exact Hs.
  - destruct (mark_attendance_app s d name now we) as [Heq | Heq];
      rewrite Heq in HM; [apply IH, HM | discriminate].
  - apply IH, HM.
Qed.

(** X3: the person locked in is never one of the sentinels "Unknown",
    "Error" and "Searching...", in any reachable state. *)
Theorem locked_person_is_no_sentinel (s : App) (M : string) :
  reachable s ->
  locked_in_person s = Some M ->
  is_sentinel M = false.
Proof. apply reachable_no_sentinel. Qed.

End StabilizationProperties.

(** X2: with a counter that is not negative, the counter is positive after
    an update exactly when some name that is no sentinel fills at least
    three quarters of the updated history. Which of two equally frequent
    names [most_common] puts first never matters. *)
Theorem counter_positive_iff_three_quarters (s : App) (name : string) :
  (0 <= stable_recognition_count s)%Z ->
  let h := push_history name (recognition_history s) in
  (0 < stable_recognition_count (update_recognition_state s name))%Z
  <-> exists M, is_sentinel M = false /\ 3 * length h <= 4 * count_of M h.
Proof.
  intros Hc h. split.
  - intros Hpos.
    destruct (update_recognition_state_most_common s name) as (M & Hmc & HM & _).
    fold h in Hmc, HM.
    rewrite (update_recognition_state_unfold s name M _ Hmc) in Hpos. fold h in Hpos.
    destruct (confident M _ _) eqn:Hconf.
    + unfold confident in Hconf. apply andb_true_iff in Hconf as [Hs Hq].
      exists M. split; [apply negb_true_iff, Hs|].
      apply threshold_reached; [|exact Hq].
      pose proof (count_of_le_length M h). lia.
    + destruct (is_locked _); simpl in Hpos; lia.
  - intros (M & Hs & Hmaj).
    destruct (update_recognition_state_majority s name M Hs Hmaj) as (_ & Hclimb & Hfull).
    destruct (Z.lt_ge_cases (stable_recognition_count s) REQUIRED_STABLE_FRAMES)
      as [Hlt|Hge].
    + destruct (Hclimb Hlt) as [-> _]. lia.
    + destruct (Hfull Hge) as [-> _]. unfold REQUIRED_STABLE_FRAMES in Hge. lia.
Qed.

(** X4: from a state with nobody locked in and a counter [c] between 0 and
    4, no sequence of at most [4 - c] labels locks anybody in: after a
    reset of the counter, a lock takes at least five updates. *)
Theorem no_lock_before_the_counter_is_full (s : App) (labels : list string) :
  locked_in_person s = None ->
  (0 <= stable_recognition_count s)%Z ->
  (stable_recognition_count s + Z.of_nat (length labels) <= 4)%Z ->
  locked_in_person (feed s labels) = None.
Proof.
  revert s. induction labels as [|x labels IH]; intros s Hl Hc Hn; simpl; [exact Hl|].
  simpl length in Hn.
  destruct (update_recognition_state_outcomes s x) as (_ & _ & Hcount).
  apply IH.
  - destruct (update_recognition_state_locked s x) as [Heq|[Heq|(M & _ & _ & Hfull)]].
    + rewrite Heq. exact Hl.
    + exact Heq.
    + unfold REQUIRED_STABLE_FRAMES in Hfull. lia.
  - unfold REQUIRED_STABLE_FRAMES in Hcount. lia.
  - unfold REQUIRED_STABLE_FRAMES in Hcount. lia.
Qed.

(** X6: once [M] is locked in with a history of eight [M] and a full
    counter, two labels of any kind leave [M] locked in and the counter as
    it is; a third one, when all three differ from [M], unlocks and empties
    the history. *)
Theorem lock_tolerates_two_foreign_labels (s : App) (M x y z : string) :
  is_sentinel M = false ->
  M <> "" ->
  recognition_history s = repeat M 8 ->
  locked_in_person s = Some M ->
  (4 <= stable_recognition_count s)%Z ->
  (locked_in_person (feed s [x; y]) = Some M
   /\ stable_recognition_count (feed s [x; y]) = stable_recognition_count s)
  /\ (x <> M -> y <> M -> z <> M ->
      locked_in_person (feed s [x; y; z]) = None
      /\ recognition_history (feed s [x; y; z]) = []
      /\ stable_recognition_count (feed s [x; y; z]) = 0%Z).
Proof.
  intros Hsent Hne Hh Hl Hc. simpl.
  set (s1 := update_recognition_state s x).
  assert (H1 : recognition_history s1 = [M; M; M; M; M; M; M; x]
               /\ stable_recognition_count s1 = stable_recognition_count s
               /\ locked_in_person s1 = Some M).
  { destruct (update_recognition_state_majority s x M Hsent) as (Hh1 & _ & Hfull).
    - rewrite Hh. cbn. rewrite !String.eqb_refl. destruct (String.eqb x M); lia.
    - destruct (Hfull Hc) as [Hc1 Hl1]. fold s1 in Hh1, Hc1, Hl1.
      rewrite Hh1, Hh. repeat split; assumption. }
  destruct H1 as (Hh1 & Hc1 & Hl1).
  set (s2 := update_recognition_state s1 y).
  assert (H2 : recognition_history s2 = [M; M; M; M; M; M; x; y]
               /\ stable_recognition_count s2 = stable_recognition_count s
               /\ locked_in_person s2 = Some M).
  { destruct (update_recognition_state_majority s1 y M Hsent) as (Hh2 & _ & Hfull).
    - rewrite Hh1. cbn. rewrite !String.eqb_refl.
      destruct (String.eqb x M); destruct (String.eqb y M); lia.
    - rewrite Hc1 in Hfull. destruct (Hfull Hc) as [Hc2 Hl2].
      fold s2 in Hh2, Hc2, Hl2. rewrite Hh2, Hh1. repeat split; assumption. }
  destruct H2 as (Hh2 & Hc2 & Hl2).
  split; [split; assumption|].
  intros Hx Hy Hz.
  set (h3 := push_history z (recognition_history s2)).
  assert (Hh3 : h3 = [M; M; M; M; M; x; y; z]) by (unfold h3; rewrite Hh2; reflexivity).
  assert (Hcount : count_of M h3 = 5).
  { rewrite Hh3. cbn. rewrite !String.eqb_refl.
    destruct (String.eqb_spec x M); [contradiction|].
    destruct (String.eqb_spec y M); [contradiction|].
    destruct (String.eqb_spec z M); [contradiction|]. reflexivity. }
  assert (Hmc : most_common_1 (Counter h3) = [(M, 5)]).
  { rewrite <- Hcount. apply most_common_1_majority. rewrite Hcount, Hh3. simpl. lia. }
  rewrite (update_recognition_state_unfold s2 z M 5 Hmc). fold h3.
  assert (Hconf : confident M 5 (length h3) = false).
  { rewrite Hh3. unfold confident. rewrite Hsent. reflexivity. }
  rewrite Hconf, Hl2. simpl.
  destruct (String.eqb_spec M ""); [contradiction|]. simpl. repeat split.
Qed.

(** ** Further properties of the attendance gate *)

(** A call that wrote, read back: the details file named the user type of
    the target file, and the entry is the row of the name, the department
    and the two times. *)
Lemma mark_attendance_written_details s d name now write_error target entry :
  marked_written (mark_attendance s d name now write_error) = Some (target, entry) ->
  exists details,
    details_files d !! replace_char " "%char "_"%char name = Some (Json details)
    /\ (String.eqb (default "Unknown" (details !! "user_type")) "Student" = true
        /\ target = student_attendance_file
        \/ String.eqb (default "Unknown" (details !! "user_type")) "Student" = false
           /\ String.eqb (default "Unknown" (details !! "user_type")) "Faculty" = true
           /\ target = faculty_attendance_file)
    /\ entry = [Text name; Text (default "N/A" (details !! "department"));
                Strftime "%Y-%m-%d" now; Strftime "%H:%M:%S" now].
Proof.
  unfold mark_attendance.
  destruct (on_cooldown s name now); [discriminate|].
  destruct (details_files d !! _) as [[e|details]|]; try discriminate.
  intros Hw. exists details. split; [reflexivity|].
  destruct write_error as [e|];
    destruct (String.eqb _ "Student"); simpl in Hw; try discriminate;
    try (destruct (String.eqb _ "Faculty"); simpl in Hw; try discriminate);
    inversion Hw; subst; auto 6.
Qed.

Lemma mark_attendance_unwritten s d name now write_error :
  marked_written (mark_attendance s d name now write_error) = None ->
  marked_app (mark_attendance s d name now write_error) = s
  /\ marked_disk (mark_attendance s d name now write_error) = d.
Proof.
  unfold mark_attendance.
  destruct (on_cooldown s name now); [auto|].
  destruct (details_files d !! _) as [[e|details]|]; auto.
  destruct write_error as [e|];
    repeat match goal with |- context [if ?b then _ else _] => destruct b end;
    simpl; auto; discriminate.
Qed.


(** X8: whatever [mark_attendance] does for one name, the entries of
    [recently_logged] for all other names, the stable-frame counter, the
    last recognition result and the files other than the two attendance
    files stay as they are. *)
Theorem mark_attendance_touches_one_name
    (s : App) (d : Disk) (name : string) (now : Z) (write_error : option Exception) :
  let r := mark_attendance s d name now write_error in
  (forall other, other <> name ->
     recently_logged (marked_app r) !! other = recently_logged s !! other)
  /\ stable_recognition_count (marked_app r) = stable_recognition_count s
  /\ last_recognition_result (marked_app r) = last_recognition_result s
  /\ details_files (marked_disk r) = details_files d
  /\ (forall file, file <> student_attendance_file -> file <> faculty_attendance_file ->
        csv_files (marked_disk r) !! file = csv_files d !! file).
Proof.
  intros r.
  destruct (marked_written r) as [[target entry]|] eqn:Hw.
  - destruct (mark_attendance_written s d name now write_error target entry Hw)
      as (_ & _ & Happ & Hdisk & Htarget).
    fold r in Happ, Hdisk. rewrite Happ, Hdisk. simpl.
    repeat split; try reflexivity.
    + intros other Hne. apply lookup_insert_ne. congruence.
    + intros file Hs Hf. apply lookup_insert_ne. destruct Htarget; congruence.
  - destruct (mark_attendance_unwritten s d name now write_error Hw) as [Happ Hdisk].
    fold r in Happ, Hdisk. rewrite Happ, Hdisk. repeat split; reflexivity.
Qed.

(** X9: the cooldown ends at the stored time itself. When a call of
    [mark_attendance] wrote its entry, a second call for the same name at
    300 seconds after the first, or later, with a [to_csv] that returns,
    writes a second entry to the same file; the file then holds what it held
    before the first call, the header if it was missing or empty then, and
    the two entries, so the header is written once. *)
Theorem commit_again_at_expiry
    (s : App) (d : Disk) (name : string) (now1 now2 : Z)
    (write_error1 : option Exception) (target : string) (entry1 : Row) :
  let r1 := mark_attendance s d name now1 write_error1 in
  let r2 := mark_attendance (marked_app r1) (marked_disk r1) name now2 None in
  marked_written r1 = Some (target, entry1) ->
  (now1 + timedelta_seconds 300 <= now2)%Z ->
  exists entry2,
    marked_written r2 = Some (target, entry2)
    /\ csv_files (marked_disk r2) !! target
       = Some (default [] (csv_files d !! target)
               ++ (if needs_header d target then [columns] else [])
               ++ [entry1; entry2])%list.
Proof.
  intros r1 r2 Hw Hnow. subst r2.
  destruct (mark_attendance_written s d name now1 write_error1 target entry1 Hw)
    as (_ & _ & Happ & Hdisk & _).
  destruct (mark_attendance_written_details s d name now1 write_error1 target entry1 Hw)
    as (details & Hdetails & Htype & _).
  fold r1 in Happ, Hdisk. rewrite Happ, Hdisk.
  assert (Hcool : on_cooldown
                    (with_logged s name (now1 + timedelta_seconds LOG_COOLDOWN_SECONDS))
                    name now2 = false).
  { unfold on_cooldown, with_logged. simpl. rewrite lookup_insert_eq.
    apply Z.ltb_ge. exact Hnow. }
  assert (Hhdr : needs_header (to_csv d target (needs_header d target) entry1) target
                 = false).
  { unfold needs_header at 1, to_csv. simpl. rewrite lookup_insert_eq.
    rewrite !length_app. simpl. apply Nat.eqb_neq. lia. }
  assert (Hrows : forall entry2,
             csv_files (to_csv (to_csv d target (needs_header d target) entry1)
                               target false entry2) !! target
             = Some (default [] (csv_files d !! target)
                     ++ (if needs_header d target then [columns] else [])
                     ++ [entry1; entry2])%list).
  { intros entry2. unfold to_csv at 1. simpl. rewrite lookup_insert_eq.
    unfold to_csv. simpl. rewrite lookup_insert_eq. simpl.
    rewrite <- !app_assoc. reflexivity. }
  unfold mark_attendance. rewrite Hcool. simpl. rewrite Hdetails.
  destruct Htype as [[Hst ->] | (Hst & Hfa & ->)].
  - rewrite Hst. simpl. rewrite Hhdr. eexists. split; [reflexivity | apply Hrows].
  - rewrite Hst, Hfa. simpl. rewrite Hhdr. eexists. split; [reflexivity | apply Hrows].
Qed.

(** ** The button *)

(** An update keeps the rule that a person locked in comes with a full
    counter. *)
Lemma update_recognition_state_full_counter s name :
  (is_locked (locked_in_person s) = true ->
   (REQUIRED_STABLE_FRAMES <= stable_recognition_count s)%Z) ->
  is_locked (locked_in_person (update_recognition_state s name)) = true ->
  (REQUIRED_STABLE_FRAMES <= stable_recognition_count (update_recognition_state s name))%Z.
Proof.
  intros Hinv.
  destruct (update_recognition_state_most_common s name) as (M & Hmc & _).
  rewrite (update_recognition_state_unfold s name M _ Hmc).
  destruct (confident M _ _).
  - destruct (Z.ltb_spec (stable_recognition_count s) REQUIRED_STABLE_FRAMES) as [Hlt|Hge].
    + simpl. intros Hl. specialize (Hinv Hl). lia.
    + destruct (negb _); simpl; intros _; exact Hge.
  - destruct (is_locked (locked_in_person s)) eqn:Hl; simpl; [discriminate|].
    rewrite Hl. discriminate.
Qed.

Section ButtonProperties.

Variables os_path_basename os_path_dirname : string -> string.

Local Abbreviation reachable := (reachable os_path_basename os_path_dirname).

Lemma reachable_full_counter s :
  reachable s ->
  is_locked (locked_in_person s) = true ->
  (REQUIRED_STABLE_FRAMES <= stable_recognition_count s)%Z.
Proof.
  induction 1 as [|s name _ IH|s found _ IH|s t p _ IH Hp|s d name now we _ IH|s b _ IH].
  - discriminate.
  - apply update_recognition_state_full_counter, IH.
  - destruct (_run_deepface_recognition_app os_path_basename os_path_dirname s found)
      as [r ->]. exact IH.
  - destruct (worker_pass_app t s p Hp) as [-> | (s1 & -> & Hh & Hc & Hl)]; [exact IH|].
    apply update_recognition_state_full_counter. rewrite Hl, Hc. exact IH.
  - destruct (mark_attendance_app s d name now we) as [-> | ->]; [exact IH|].
    discriminate.
  - exact IH.
Qed.

(** X10: in every reachable state, whenever a person is locked in, the
    stable-frame counter is at [REQUIRED_STABLE_FRAMES] = 4. *)
Theorem locked_means_full_counter (s : App) :
  reachable s ->
  is_locked (locked_in_person s) = true ->
  stable_recognition_count s = 4%Z.
Proof.
  intros Hreach Hl.
  pose proof (reachable_full_counter s Hreach Hl) as Hge.
  destruct (reachable_bounds _ _ s Hreach) as [_ Hc].
  unfold REQUIRED_STABLE_FRAMES in *. lia.
Qed.

(** X5: [mark_attendance] resets [locked_in_person] and the history but not
    the counter. So after a press of the button that wrote the entry,
    nobody is locked in, and the very next update locks its label in again
    when that label is no sentinel: the history is that one label and the
    counter is still full. *)
Theorem relock_right_after_marking
    (s : App) (d : Disk) (now : Z) (write_error : option Exception)
    (r : Marked) (target : string) (entry : Row) (M : string) :
  reachable s ->
  manual_mark_attendance s d now write_error = MarkCalled r ->
  marked_written r = Some (target, entry) ->
  is_sentinel M = false ->
  locked_in_person (marked_app r) = None
  /\ stable_recognition_count (marked_app r) = 4%Z
  /\ locked_in_person (update_recognition_state (marked_app r) M) = Some M.
Proof.
  intros Hreach Hpress Hw Hsent.
  unfold manual_mark_attendance in Hpress.
  destruct (locked_in_person s) as [person|] eqn:Hperson; [|discriminate].
  destruct (is_locked (Some person)) eqn:Hlocked; [|discriminate].
  inversion Hpress; subst r; clear Hpress.
  assert (Hfull : stable_recognition_count s = 4%Z).
  { pose proof (reachable_full_counter s Hreach) as Hge. rewrite Hperson in Hge.
    specialize (Hge Hlocked).
    destruct (reachable_bounds _ _ s Hreach) as [_ Hc].
    unfold REQUIRED_STABLE_FRAMES in *. lia. }
  destruct (mark_attendance_written s d person now write_error target entry Hw)
    as (_ & _ & Happ & _).
  rewrite Happ. split; [reflexivity|]. split; [exact Hfull|].
  destruct (update_recognition_state_ready
              (with_logged s person (now + timedelta_seconds LOG_COOLDOWN_SECONDS))
              M Hsent (ready_for_empty M)) as (_ & _ & Hlock).
  apply Hlock. simpl. unfold REQUIRED_STABLE_FRAMES. lia.
Qed.

(** X11: the button calls [mark_attendance] only for the person locked in,
    whose name is not empty and is none of the sentinels; in every other
    reachable state it shows the warning and changes nothing. *)
Theorem button_marks_only_a_locked_person
    (s : App) (d : Disk) (now : Z) (write_error : option Exception) :
  reachable s ->
  (exists person,
      locked_in_person s = Some person /\ person <> "" /\ is_sentinel person = false
      /\ manual_mark_attendance s d now write_error
         = MarkCalled (mark_attendance s d person now write_error))
  \/ (is_locked (locked_in_person s) = false
      /\ manual_mark_attendance s d now write_error = NoPersonWarning).
Proof.
  intros Hreach. unfold manual_mark_attendance.
  destruct (locked_in_person s) as [person|] eqn:Hperson; [|right; split; reflexivity].
  destruct (is_locked (Some person)) eqn:Hlocked; [left | right; split; reflexivity].
  exists person. split; [reflexivity|]. split.
  - simpl in Hlocked. intros ->. discriminate.
  - split; [|reflexivity].
    exact (reachable_no_sentinel os_path_basename os_path_dirname s person Hreach Hperson).
Qed.

End ButtonProperties.

(** ** Further properties of the worker *)




(** A pass that submits went through the gate, with more than the interval
    since the last dispatch, and records the time. *)
Lemma worker_pass_dispatch t s p frame :
  worker_pass t s = Ok p ->
  pass_submitted p = Some frame ->
  dispatch_gate s (face_coords_of (match detectMultiScale t with
                                   | Ok faces => faces
                                   | Raise _ => []
                                   end)) t = true
  /\ (RECOGNITION_INTERVAL < monotonic t - last_recognition_time s)%Q
  /\ last_recognition_time (pass_app p) = monotonic t.
Proof.
  unfold worker_pass. intros Hp Hsub.
  destruct (raw_frame t) as [frame0|]; [|inversion Hp; subst; discriminate].
  destruct (detectMultiScale t) as [faces|e]; [|discriminate].
  inversion Hp; subst; clear Hp. simpl in Hsub.
  destruct (dispatch_gate s (face_coords_of faces) t) eqn:Hgate; [|discriminate].
  split; [reflexivity|]. split.
  - unfold dispatch_gate in Hgate. apply andb_true_iff in Hgate as [_ Htime].
    apply negb_true_iff in Htime. apply Qnot_le_lt.
    intros Hle. apply Qle_bool_iff in Hle. congruence.
  - simpl.
    destruct (update_recognition_state_frame
                (with_dispatch s (monotonic t) (mkFuture (cv2_flip frame0)))
                (fst (last_recognition_result s))) as (_ & _ & _ & -> & _).
    reflexivity.
Qed.

(** X14: two passes that both submit a recognition task are more than
    [RECOGNITION_INTERVAL] = 0.75 seconds apart on the monotonic clock,
    whatever happened between them that left [last_recognition_time]
    alone. *)
Theorem dispatches_are_spaced
    (t1 t2 : Tick) (s1 s2 : App) (p1 p2 : Pass) (frame1 frame2 : Frame) :
  worker_pass t1 s1 = Ok p1 ->
  pass_submitted p1 = Some frame1 ->
  last_recognition_time s2 = last_recognition_time (pass_app p1) ->
  worker_pass t2 s2 = Ok p2 ->
  pass_submitted p2 = Some frame2 ->
  (75 # 100 < monotonic t2 - monotonic t1)%Q.
Proof.
  intros Hp1 Hsub1 Hkeep Hp2 Hsub2.
  destruct (worker_pass_dispatch t1 s1 p1 frame1 Hp1 Hsub1) as (_ & _ & Htime1).
  destruct (worker_pass_dispatch t2 s2 p2 frame2 Hp2 Hsub2) as (_ & Hlt & _).
  rewrite Hkeep, Htime1 in Hlt. exact Hlt.
Qed.

Lemma worker_pass_not_ready t s p :
  database_ready s = false ->
  worker_pass t s = Ok p ->
  pass_submitted p = None /\ database_ready (pass_app p) = false.
Proof.
  unfold worker_pass. intros Hdb Hp.
  destruct (raw_frame t) as [frame0|]; [|inversion Hp; subst; auto].
  destruct (detectMultiScale t) as [faces|e]; [|discriminate].
  inversion Hp; subst; clear Hp. simpl.
  assert (Hgate : dispatch_gate s (face_coords_of faces) t = false)
    by (unfold dispatch_gate; rewrite Hdb; reflexivity).
  rewrite Hgate. split; [reflexivity|].
  destruct (update_recognition_state_frame s (fst (last_recognition_result s)))
    as (-> & _). exact Hdb.
Qed.

Lemma worker_pass_plain t s :
  plain_tick t ->
  exists p, worker_pass t s = Ok p
            /\ same_stabilization (pass_app p)
                 (update_recognition_state s (fst (last_recognition_result s)))
            /\ last_recognition_result (pass_app p) = last_recognition_result s.
Proof.
  intros (_ & [frame0 Hframe] & [faces Hfaces] & _).
  unfold worker_pass. rewrite Hframe, Hfaces. eexists. split; [reflexivity|]. simpl.
  destruct (dispatch_gate s (face_coords_of faces) t); simpl.
  - split.
    + apply update_recognition_state_same; reflexivity.
    + destruct (update_recognition_state_frame
                  (with_dispatch s (monotonic t) (mkFuture (cv2_flip frame0)))
                  (fst (last_recognition_result s))) as (_ & _ & -> & _).
      reflexivity.
  - split; [repeat split|].
    destruct (update_recognition_state_frame s (fst (last_recognition_result s)))
      as (_ & _ & -> & _). reflexivity.
Qed.

Lemma feed_same s1 s2 labels :
  same_stabilization s1 s2 -> same_stabilization (feed s1 labels) (feed s2 labels).
Proof.
  revert s1 s2. induction labels as [|x labels IH]; intros s1 s2 Hsame; simpl;
    [exact Hsame|].
  apply IH. destruct Hsame as (Hl & Hh & Hc).
  apply update_recognition_state_same; assumption.
Qed.

Section WorkerRunProperties.

Variables os_path_basename os_path_dirname : string -> string.

Local Abbreviation worker := (_frame_processing_worker os_path_basename os_path_dirname).
Local Abbreviation reachable := (reachable os_path_basename os_path_dirname).

Lemma recognition_thread_database_ready s t :
  database_ready (recognition_thread os_path_basename os_path_dirname s t)
  = database_ready s.
Proof.
  unfold recognition_thread. destruct (recognition_finished t) as [found|]; [|reflexivity].
  destruct (_run_deepface_recognition_app os_path_basename os_path_dirname s found)
    as [r ->]. reflexivity.
Qed.

Lemma worker_not_ready ticks r :
  database_ready (run_app r) = false ->
  run_submitted (worker ticks r) = run_submitted r
  /\ database_ready (run_app (worker ticks r)) = false.
Proof.
  revert r. induction ticks as [|t ticks IH]; intros r Hdb; simpl; [auto|].
  assert (Hdb' : database_ready
                   (recognition_thread os_path_basename os_path_dirname (run_app r) t)
                 = false) by (rewrite recognition_thread_database_ready; exact Hdb).
  destruct (app_running t); simpl; [|auto].
  destruct (worker_pass t _) as [p|e] eqn:Hp; simpl; [|auto].
  destruct (worker_pass_not_ready t _ p Hdb' Hp) as [Hsub Hdbp].
  destruct (IH (mkWorkerRun Looping (pass_app p) (S (run_passes r))
                  (run_submitted r ++ option_list (pass_submitted p))
                  (run_put r ++ option_list (pass_put p))) Hdbp) as [Hs Hd].
  split; [|exact Hd]. rewrite Hs. simpl. rewrite Hsub. simpl. apply app_nil_r.
Qed.

(** X13: when the database check finds no user folder, or the warm-up call
    of [DeepFace.find] raises, [database_ready] is false, and a worker that
    starts from there never submits a recognition task, however many
    frames it processes and whatever the detector finds (as long as no
    later check sets the flag). *)
Theorem no_dispatch_without_database
    (s : App) (listing : option (list DirEntry)) (warm_up : Result FindReturn)
    (ticks : list Tick) :
  List.filter entry_isdir (default [] listing) = [] \/ (exists e, warm_up = Raise e) ->
  let s0 := fst (_initialize_models_and_verify_db s listing warm_up) in
  database_ready s0 = false
  /\ run_submitted (worker ticks (start_worker s0)) = [].
Proof.
  intros Hcause s0.
  assert (Hdb : database_ready s0 = false).
  { subst s0. unfold _initialize_models_and_verify_db.
    destruct listing as [[|e0 entries]|]; try reflexivity.
    destruct (List.filter entry_isdir (e0 :: entries)) eqn:Hf; [reflexivity|].
    destruct Hcause as [Hnone | [e ->]]; [|reflexivity].
    change (List.filter entry_isdir (e0 :: entries) = []) in Hnone.
    rewrite Hf in Hnone. discriminate. }
  split; [exact Hdb|].
  destruct (worker_not_ready ticks (start_worker s0) Hdb) as [Hs _]. exact Hs.
Qed.

Lemma worker_plain_run ticks r :
  Forall plain_tick ticks ->
  let r' := worker ticks r in
  let label := fst (last_recognition_result (run_app r)) in
  same_stabilization (run_app r') (feed (run_app r) (repeat label (length ticks)))
  /\ last_recognition_result (run_app r') = last_recognition_result (run_app r)
  /\ run_passes r' = run_passes r + length ticks
  /\ (ticks <> [] -> run_status r' = Looping).
Proof.
  revert r. induction ticks as [|t ticks IH]; intros r Hall; simpl.
  - repeat split; [lia | congruence].
  - inversion Hall as [|? ? Ht Hall']; subst.
    assert (Hthread : recognition_thread os_path_basename os_path_dirname (run_app r) t
                      = run_app r).
    { unfold recognition_thread. destruct Ht as (_ & _ & _ & ->). reflexivity. }
    rewrite Hthread.
    destruct Ht as (Hrun & Hrest). rewrite Hrun. simpl.
    destruct (worker_pass_plain t (run_app r) (conj Hrun Hrest)) as (p & Hp & Hsame & Hlast).
    rewrite Hp.
    set (r1 := mkWorkerRun Looping (pass_app p) (S (run_passes r))
                 (run_submitted r ++ option_list (pass_submitted p))
                 (run_put r ++ option_list (pass_put p))).
    destruct (IH r1 Hall') as (Hs & Hl & Hn & Hst). simpl in Hs, Hl, Hn.
    rewrite Hlast in Hs.
    split; [|split; [|split]].
    + destruct Hs as (H1 & H2 & H3).
      destruct (feed_same _ _ (repeat (fst (last_recognition_result (run_app r)))
                                 (length ticks)) Hsame) as (G1 & G2 & G3).
      repeat split; congruence.
    + rewrite Hl. exact Hlast.
    + rewrite Hn. lia.
    + intros _. destruct ticks as [|t' ticks']; [reflexivity|].
      apply Hst. discriminate.
Qed.

(** X15: the worker feeds the cached recognition label into the
    stabilization on every pass, with or without a face in the frame. So
    from any reachable state, ten passes or more during which no
    recognition task finishes lock that label in when it is no sentinel
    (and the worker is still looping). *)
Theorem worker_locks_cached_label (ticks : list Tick) (r : WorkerRun) :
  reachable (run_app r) ->
  Forall plain_tick ticks ->
  10 <= length ticks ->
  let label := fst (last_recognition_result (run_app r)) in
  is_sentinel label = false ->
  run_status (worker ticks r) = Looping
  /\ run_passes (worker ticks r) = run_passes r + length ticks
  /\ locked_in_person (run_app (worker ticks r)) = Some label.
Proof.
  intros Hreach Hall Hlen label Hsent.
  destruct (worker_plain_run ticks r Hall) as ((Hl & _ & _) & _ & Hn & Hst).
  split; [|split; [exact Hn|]].
  - apply Hst. intros ->. simpl in Hlen. lia.
  - rewrite Hl. apply feed_repeat_locks; try assumption.
    apply (reachable_bounds os_path_basename os_path_dirname), Hreach.
Qed.

End WorkerRunProperties.

(** ** Names, folders and labels *)

Lemma replace_char_removes old new s :
  old <> new -> has_char old (replace_char old new s) = false.
Proof.
  intros Hne. induction s as [|c s IH]; simpl; [reflexivity|].
  rewrite IH, orb_false_r.
  destruct (Ascii.eqb_spec c old) as [->|Hc]; apply Ascii.eqb_neq; congruence.
Qed.

Lemma replace_char_absent old new s :
  has_char old s = false -> replace_char old new s = s.
Proof.
  induction s as [|c s IH]; simpl; [reflexivity|].
  intros Hno. apply orb_false_iff in Hno as [Hc Hs].
  rewrite Hc, IH by exact Hs. reflexivity.
Qed.

Lemma replace_char_back a b s :
  has_char b s = false ->
  replace_char b a (replace_char a b s) = s.
Proof.
  induction s as [|c s IH]; simpl; [reflexivity|].
  intros Hno. apply orb_false_iff in Hno as [Hc Hs]. rewrite IH by exact Hs.
  destruct (Ascii.eqb_spec c a) as [->|Hca].
  - rewrite Ascii.eqb_refl. reflexivity.
  - rewrite Hc. reflexivity.
Qed.

Section NameProperties.

Variables os_path_basename os_path_dirname : string -> string.

Local Abbreviation run_recognition :=
  (_run_deepface_recognition os_path_basename os_path_dirname).

(** X16: the label that the recognition task stores never contains an
    underscore, whatever [DeepFace.find] does; so a user whose registered
    name contains an underscore is never reported under that name. *)
Theorem recognition_label_has_no_underscore
    (s : App) (found : Result FindReturn) (registered : string) :
  let label := fst (last_recognition_result (run_recognition s found)) in
  has_char "_"%char label = false
  /\ (has_char "_"%char registered = true -> label <> registered).
Proof.
  intros label.
  assert (Hno : has_char "_"%char label = false).
  { subst label. unfold _run_deepface_recognition.
    destruct found as [[|[|[|best more] rest]]|e]; try reflexivity.
    destruct (negb _); simpl; [|reflexivity].
    apply replace_char_removes. discriminate. }
  split; [exact Hno|]. intros Hreg Heq. rewrite Heq in Hno. congruence.
Qed.

(** X17: registration stores a user under the folder [name.replace(' ',
    '_')]. When the best match lies in that folder, nearer than the
    threshold, the label stored by the recognition task leads
    [mark_attendance] back to the same folder, and it is the registered
    name itself when that name has no underscore. *)
Theorem registered_name_round_trip
    (s : App) (best : Match) (more : DataFrame) (rest : list DataFrame)
    (registered : string) :
  let folder_name := replace_char " "%char "_"%char registered in
  let label :=
    fst (last_recognition_result
           (run_recognition s (Ok (ListOf ((best :: more) :: rest))))) in
  os_path_basename (os_path_dirname (identity best)) = folder_name ->
  (distance best < 40 # 100)%Q ->
  replace_char " "%char "_"%char label = folder_name
  /\ (has_char "_"%char registered = false -> label = registered).
Proof.
  intros folder_name label Hfolder Hnear.
  assert (Hlabel : label = replace_char "_"%char " "%char folder_name).
  { subst label. unfold _run_deepface_recognition.
    destruct (Qle_bool DEEPFACE_DISTANCE_THRESHOLD (distance best)) eqn:Hle.
    - apply Qle_bool_iff in Hle. exfalso. exact (Qlt_not_le _ _ Hnear Hle).
    - simpl. rewrite Hfolder. reflexivity. }
  rewrite Hlabel. subst folder_name. split.
  - apply replace_char_back, replace_char_removes. discriminate.
  - intros Hno. apply replace_char_back, Hno.
Qed.

End NameProperties.

(** ** The status line *)

(** X18: the status line offers "Ready to Mark" for a person exactly when
    that person is locked in, with a name that is not empty, and is not on
    cooldown at the time of the test; the label and the distance of the
    frame play no part. *)
Theorem ready_to_mark_iff
    (s : App) (now1 now2 : Z) (face_coords : option Rect) (name : string)
    (dist : Distance) (person : string) :
  status_text (draw_on_frame s now1 now2 face_coords name dist) = ReadyToMark person
  <-> locked_in_person s = Some person /\ person <> ""
      /\ on_cooldown s person now1 = false.
Proof.
  unfold draw_on_frame.
  destruct (locked_in_person s) as [l|] eqn:Hl; simpl.
  - destruct (String.eqb_spec l "") as [->|Hne]; simpl.
    + split.
      * destruct (_ && _); [discriminate|].
        destruct face_coords; [destruct (String.eqb name "Unknown")|]; discriminate.
      * intros (Heq & Hne & _). inversion Heq; subst. contradiction.
    + destruct (on_cooldown s l now1) eqn:Hcool; simpl.
      * split; [discriminate|]. intros (Heq & _ & Hc). inversion Heq; subst. congruence.
      * split.
        -- intros Heq. inversion Heq; subst. auto.
        -- intros (Heq & _). inversion Heq; subst. reflexivity.
  - split.
    + destruct (_ && _); [discriminate|].
      destruct face_coords; [destruct (String.eqb name "Unknown")|]; discriminate.
    + intros (Heq & _). discriminate.
Qed.

(** X19: after a call of [mark_attendance] that wrote the entry of a
    person, and the update that locks the person in again, the status line
    shows "already logged" for that person, not "Ready to Mark", for any
    test made before the expiry. The seconds shown are at most 300 when the
    clock has not gone back behind the marking, and not negative when the
    second reading of the clock is not past the expiry. *)
Theorem cooldown_shown_after_marking
    (s : App) (d : Disk) (person : string) (now now1 now2 : Z)
    (write_error : option Exception) (target : string) (entry : Row)
    (face_coords : option Rect) (name : string) (dist : Distance) :
  let r := mark_attendance s d person now write_error in
  let s1 := update_recognition_state (marked_app r) person in
  let v := draw_on_frame s1 now1 now2 face_coords name dist in
  marked_written r = Some (target, entry) ->
  (4 <= stable_recognition_count s)%Z ->
  is_sentinel person = false ->
  person <> "" ->
  (now1 < now + timedelta_seconds 300)%Z ->
  exists remaining,
    status_text v = AlreadyLogged person remaining
    /\ display_name v = person
    /\ ((now <= now2)%Z -> (remaining <= 300)%Z)
    /\ ((now2 <= now + timedelta_seconds 300)%Z -> (0 <= remaining)%Z).
Proof.
  intros r s1 v Hw Hfull Hsent Hne Hnow1.
  destruct (mark_attendance_written s d person now write_error target entry Hw)
    as (_ & _ & Happ & _).
  fold r in Happ.
  assert (Hl : locked_in_person s1 = Some person).
  { subst s1. rewrite Happ.
    destruct (update_recognition_state_ready
                (with_logged s person (now + timedelta_seconds LOG_COOLDOWN_SECONDS))
                person Hsent (ready_for_empty person)) as (_ & _ & Hlock).
    apply Hlock. simpl. unfold REQUIRED_STABLE_FRAMES. lia. }
  assert (Hlog : recently_logged s1 !! person = Some (now + timedelta_seconds 300)%Z).
  { subst s1.
    destruct (update_recognition_state_frame (marked_app r) person) as (_ & -> & _).
    rewrite Happ. simpl. apply lookup_insert_eq. }
  subst v. unfold draw_on_frame. rewrite Hl. simpl.
  destruct (String.eqb_spec person ""); [contradiction|]. simpl.
  unfold on_cooldown. rewrite Hlog.
  assert (Hlt : (now1 <? now + timedelta_seconds 300)%Z = true) by (apply Z.ltb_lt, Hnow1).
  rewrite Hlt. simpl. eexists. split; [reflexivity|]. split; [reflexivity|].
  unfold whole_seconds, timedelta_seconds. split.
  - intros Hle.
    replace 300%Z with (Z.quot (300 * 1000000) 1000000) at 2 by reflexivity.
    apply Z.quot_le_mono; lia.
  - intros Hle. apply Z.quot_pos; lia.
Qed.

(** ** The database check *)

(** X20: after the database check, [database_ready] is true exactly when
    [db_path] exists, holds at least one directory, and the warm-up call of
    [DeepFace.find] returned; the check changes no other attribute. *)
Theorem database_ready_iff
    (s : App) (listing : option (list DirEntry)) (warm_up : Result FindReturn) :
  let s' := fst (_initialize_models_and_verify_db s listing warm_up) in
  (database_ready s' = true
   <-> exists entries e,
         listing = Some entries /\ In e entries /\ entry_isdir e = true
         /\ exists value, warm_up = Ok value)
  /\ s' = with_database_ready s (database_ready s').
Proof.
  intros s'. subst s'. unfold _initialize_models_and_verify_db.
  destruct listing as [[|e0 entries]|]; simpl.
  - split; [|reflexivity]. split; [discriminate|].
    intros (entries & e & Heq & Hin & _). inversion Heq; subst. destruct Hin.
  - destruct (List.filter entry_isdir (e0 :: entries)) as [|f fs] eqn:Hf.
    + simpl in Hf. rewrite Hf. simpl. split; [|reflexivity]. split; [discriminate|].
      intros (entries' & e & Heq & Hin & Hdir & _). inversion Heq; subst.
      assert (Hin' : In e (List.filter entry_isdir (e0 :: entries)))
        by (apply filter_In; split; assumption).
      simpl in Hin'. rewrite Hf in Hin'. destruct Hin'.
    + simpl in Hf. rewrite Hf.
      assert (Hfin : In f (List.filter entry_isdir (e0 :: entries)))
        by (simpl; rewrite Hf; left; reflexivity).
      apply filter_In in Hfin as [Hin Hdir].
      destruct warm_up as [value|e]; simpl; (split; [|reflexivity]).
      * split; [|reflexivity]. intros _. exists (e0 :: entries), f. eauto.
      * split; [discriminate|]. intros (_ & _ & _ & _ & _ & value & Hv). discriminate.
  - split; [|reflexivity]. split; [discriminate|].
    intros (entries & e & Heq & _). discriminate.
Qed.

(** ** The camera worker *)



(** ** The entries of the login form *)

(** X22: an entry that gets the focus and loses it again without input is
    back in the state in which it was created, showing its placeholder; and
    a text that is not empty, typed into a password entry after it got the
    focus, is kept and shown masked when the focus is lost. *)
Theorem placeholder_entry_focus (ph text : string) (show : option string) :
  _add_placeholder (_clear_placeholder (PlaceholderEntry_init ph show))
  = PlaceholderEntry_init ph show
  /\ (text <> "" ->
      let e := typed (_clear_placeholder (PlaceholderEntry_init ph (Some "*"))) text in
      entry_text (_add_placeholder e) = text
      /\ entry_show (_add_placeholder e) = "*").
Proof.
  split.
  - unfold PlaceholderEntry_init, _clear_placeholder, _add_placeholder. simpl.
    rewrite String.eqb_refl. simpl.
    destruct show as [sh|]; simpl; [destruct (String.eqb sh "*")|]; reflexivity.
  - intros Hne e. subst e.
    unfold PlaceholderEntry_init, _clear_placeholder, _add_placeholder, typed. simpl.
    rewrite String.eqb_refl. simpl.
    destruct (String.eqb_spec text ""); [contradiction|]. simpl. auto.
Qed.

(** ** The further properties at concrete inputs *)

Lemma reachable_feed os_path_basename os_path_dirname s labels :
  reachable os_path_basename os_path_dirname s ->
  reachable os_path_basename os_path_dirname (feed s labels).
Proof.
  revert s. induction labels as [|x labels IH]; intros s Hs; simpl; [exact Hs|].
  apply IH, reachable_update, Hs.
Defined.

Lemma history_is_a_window_of_eight_witness :
  let s := feed initial_app (repeat "A" 8) in
  reachable (fun p => p) (fun p => p) s
  /\ length (recognition_history s) <= 8
  /\ (recognition_history (update_recognition_state s "B") = []
      \/ recognition_history (update_recognition_state s "B")
         = skipn (length (recognition_history s) + 1 - 8)
                 (recognition_history s ++ ["B"])%list).
Proof.
  intros s.
  assert (Hs : reachable (fun p => p) (fun p => p) s)
    by (apply reachable_feed, reachable_initial).
  split; [exact Hs|].
  exact (history_is_a_window_of_eight (fun p => p) (fun p => p) s "B" Hs).
Defined.

Lemma counter_positive_iff_three_quarters_witness :
  let s := feed initial_app ["A"; "A"; "Unknown"] in
  let h := push_history "A" (recognition_history s) in
  (0 <= stable_recognition_count s)%Z
  /\ ((0 < stable_recognition_count (update_recognition_state s "A"))%Z
      <-> exists M, is_sentinel M = false /\ 3 * length h <= 4 * count_of M h).
Proof.
  intros s h.
  assert (Hc : (0 <= stable_recognition_count s)%Z) by (vm_compute; discriminate).
  split; [exact Hc|].
  exact (counter_positive_iff_three_quarters s "A" Hc).
Defined.

Lemma locked_person_is_no_sentinel_witness :
  let s := feed initial_app (repeat "A" 5) in
  (reachable (fun p => p) (fun p => p) s /\ locked_in_person s = Some "A")
  /\ is_sentinel "A" = false.
Proof.
  intros s.
  assert (Hs : reachable (fun p => p) (fun p => p) s)
    by (apply reachable_feed, reachable_initial).
  assert (Hl : locked_in_person s = Some "A") by (vm_compute; reflexivity).
  split; [split; assumption|].
  exact (locked_person_is_no_sentinel (fun p => p) (fun p => p) s "A" Hs Hl).
Defined.

Lemma no_lock_before_the_counter_is_full_witness :
  (locked_in_person initial_app = None
   /\ (0 <= stable_recognition_count initial_app)%Z
   /\ (stable_recognition_count initial_app + Z.of_nat (length ["A"; "A"; "B"; "A"]) <= 4)%Z)
  /\ locked_in_person (feed initial_app ["A"; "A"; "B"; "A"]) = None.
Proof.
  assert (H0 : (0 <= stable_recognition_count initial_app)%Z) by (vm_compute; discriminate).
  assert (H4 : (stable_recognition_count initial_app
                + Z.of_nat (length ["A"; "A"; "B"; "A"]) <= 4)%Z)
    by (vm_compute; discriminate).
  split; [repeat split; assumption|].
  exact (no_lock_before_the_counter_is_full initial_app ["A"; "A"; "B"; "A"]
           eq_refl H0 H4).
Defined.

Lemma lock_tolerates_two_foreign_labels_witness :
  let s := feed initial_app (repeat "A" 8) in
  (locked_in_person (feed s ["B"; "Unknown"]) = Some "A"
   /\ stable_recognition_count (feed s ["B"; "Unknown"]) = stable_recognition_count s)
  /\ locked_in_person (feed s ["B"; "Unknown"; "C"]) = None.
Proof.
  intros s.
  assert (Hc : (4 <= stable_recognition_count s)%Z) by (vm_compute; discriminate).
  destruct (lock_tolerates_two_foreign_labels s "A" "B" "Unknown" "C"
              eq_refl ltac:(discriminate) eq_refl eq_refl Hc) as [Htwo Hthree].
  split; [exact Htwo|].
  apply Hthree; discriminate.
Defined.


Lemma commit_again_at_expiry_witness :
  let d := mkDisk {["Bob" := Json {["user_type" := "Student"]}]} ∅ in
  let entry1 : Row :=
    [Text "Bob"; Text "N/A"; Strftime "%Y-%m-%d" 0; Strftime "%H:%M:%S" 0] in
  let r1 := mark_attendance initial_app d "Bob" 0 None in
  let r2 := mark_attendance (marked_app r1) (marked_disk r1) "Bob" 300000000 None in
  (marked_written r1 = Some (student_attendance_file, entry1)
   /\ (0 + timedelta_seconds 300 <= 300000000)%Z)
  /\ exists entry2,
       marked_written r2 = Some (student_attendance_file, entry2)
       /\ csv_files (marked_disk r2) !! student_attendance_file
          = Some (default [] (csv_files d !! student_attendance_file)
                  ++ (if needs_header d student_attendance_file then [columns] else [])
                  ++ [entry1; entry2])%list.
Proof.
  intros d entry1 r1 r2.
  assert (Hw : marked_written r1 = Some (student_attendance_file, entry1))
    by (vm_compute; reflexivity).
  assert (Hnow : (0 + timedelta_seconds 300 <= 300000000)%Z)
    by (vm_compute; discriminate).
  split; [split; assumption|].
  exact (commit_again_at_expiry initial_app d "Bob" 0 300000000 None
           student_attendance_file entry1 Hw Hnow).
Defined.

Lemma locked_means_full_counter_witness :
  let s := feed initial_app (repeat "A" 6) in
  (reachable (fun p => p) (fun p => p) s /\ is_locked (locked_in_person s) = true)
  /\ stable_recognition_count s = 4%Z.
Proof.
  intros s.
  assert (Hs : reachable (fun p => p) (fun p => p) s)
    by (apply reachable_feed, reachable_initial).
  assert (Hl : is_locked (locked_in_person s) = true) by (vm_compute; reflexivity).
  split; [split; assumption|].
  exact (locked_means_full_counter (fun p => p) (fun p => p) s Hs Hl).
Defined.

Lemma relock_right_after_marking_witness :
  let s := feed initial_app (repeat "Bob" 5) in
  let d := mkDisk {["Bob" := Json {["user_type" := "Student"]}]} ∅ in
  let r := mark_attendance s d "Bob" 7 None in
  (reachable (fun p => p) (fun p => p) s
   /\ manual_mark_attendance s d 7 None = MarkCalled r
   /\ is_Some (marked_written r))
  /\ locked_in_person (marked_app r) = None
  /\ stable_recognition_count (marked_app r) = 4%Z
  /\ locked_in_person (update_recognition_state (marked_app r) "Bob") = Some "Bob".
Proof.
  intros s d r.
  assert (Hs : reachable (fun p => p) (fun p => p) s)
    by (apply reachable_feed, reachable_initial).
  assert (Hpress : manual_mark_attendance s d 7 None = MarkCalled r)
    by (vm_compute; reflexivity).
  assert (Hw : marked_written r
               = Some (student_attendance_file,
                       [Text "Bob"; Text "N/A"; Strftime "%Y-%m-%d" 7;
                        Strftime "%H:%M:%S" 7]))
    by (vm_compute; reflexivity).
  split.
  - split; [exact Hs|]. split; [exact Hpress|]. rewrite Hw. eexists. reflexivity.
  - exact (relock_right_after_marking (fun p => p) (fun p => p) s d 7 None r _ _ "Bob"
             Hs Hpress Hw eq_refl).
Defined.

Lemma button_marks_only_a_locked_person_witness :
  let s := feed initial_app (repeat "Bob" 5) in
  let d := mkDisk ∅ ∅ in
  reachable (fun p => p) (fun p => p) s
  /\ ((exists person,
         locked_in_person s = Some person /\ person <> "" /\ is_sentinel person = false
         /\ manual_mark_attendance s d 7 None
            = MarkCalled (mark_attendance s d person 7 None))
      \/ (is_locked (locked_in_person s) = false
          /\ manual_mark_attendance s d 7 None = NoPersonWarning)).
Proof.
  intros s d.
  assert (Hs : reachable (fun p => p) (fun p => p) s)
    by (apply reachable_feed, reachable_initial).
  split; [exact Hs|].
  exact (button_marks_only_a_locked_person (fun p => p) (fun p => p) s d 7 None Hs).
Defined.

Lemma no_dispatch_without_database_witness :
  let listing := Some [mkDirEntry "notes.txt" false] in
  let face := mkTick true (Some [[0; 1]%Z]) (Ok [(0, 0, 60, 60)%Z]) 5 false false None in
  let s0 := fst (_initialize_models_and_verify_db initial_app listing (Ok NotAList)) in
  database_ready s0 = false
  /\ run_submitted
       (_frame_processing_worker (fun p => p) (fun p => p) [face; face; face]
          (start_worker s0)) = [].
Proof.
  intros listing face s0.
  exact (no_dispatch_without_database (fun p => p) (fun p => p) initial_app listing
           (Ok NotAList) [face; face; face] (or_introl eq_refl)).
Defined.

Lemma dispatches_are_spaced_witness :
  let s := with_database_ready initial_app true in
  let t1 := mkTick true (Some [[0; 1]%Z]) (Ok [(0, 0, 60, 60)%Z]) 1 false false None in
  let t2 := mkTick true (Some [[2; 3]%Z]) (Ok [(0, 0, 60, 60)%Z]) 2 false false None in
  exists p1 p2,
    worker_pass t1 s = Ok p1 /\ pass_submitted p1 = Some [[1; 0]%Z]
    /\ worker_pass t2 (pass_app p1) = Ok p2 /\ pass_submitted p2 = Some [[3; 2]%Z]
    /\ (75 # 100 < monotonic t2 - monotonic t1)%Q.
Proof.
  intros s t1 t2. eexists. eexists.
  split; [reflexivity|]. split; [reflexivity|].
  split; [reflexivity|]. split; [reflexivity|].
  exact (dispatches_are_spaced t1 t2 s _ _ _ [[1; 0]%Z] [[3; 2]%Z]
           eq_refl eq_refl eq_refl eq_refl eq_refl).
Defined.

Lemma worker_locks_cached_label_witness :
  let found := Ok (ListOf [[mkMatch "Ann_Lee" (20 # 100)]]) in
  let s := _run_deepface_recognition (fun p => p) (fun p => p) initial_app found in
  let empty := mkTick true (Some [[0; 1]%Z]) (Ok []) 1 false false None in
  let r := _frame_processing_worker (fun p => p) (fun p => p) (repeat empty 10)
             (start_worker s) in
  (reachable (fun p => p) (fun p => p) s
   /\ Forall plain_tick (repeat empty 10)
   /\ fst (last_recognition_result s) = "Ann Lee")
  /\ run_status r = Looping
  /\ run_passes r = 0 + length (repeat empty 10)
  /\ locked_in_person (run_app r) = Some "Ann Lee".
Proof.
  intros found s empty r.
  assert (Hs : reachable (fun p => p) (fun p => p) s)
    by (apply reachable_recognition, reachable_initial).
  assert (Hplain : plain_tick empty).
  { split; [reflexivity|]. split; [eexists; reflexivity|].
    split; [eexists; reflexivity | reflexivity]. }
  assert (Hall : Forall plain_tick (repeat empty 10))
    by (simpl; repeat (constructor; [exact Hplain|]); constructor).
  split; [split; [exact Hs | split; [exact Hall | reflexivity]]|].
  exact (worker_locks_cached_label (fun p => p) (fun p => p) (repeat empty 10)
           (start_worker s) Hs Hall (le_n 10) eq_refl).
Defined.

Lemma registered_name_round_trip_witness :
  let best := mkMatch "Ann_Lee" (20 # 100) in
  let label :=
    fst (last_recognition_result
           (_run_deepface_recognition (fun p => p) (fun p => p) initial_app
              (Ok (ListOf [[best]])))) in
  replace_char " "%char "_"%char label = replace_char " "%char "_"%char "Ann Lee"
  /\ (has_char "_"%char "Ann Lee" = false -> label = "Ann Lee").
Proof.
  intros best label.
  exact (registered_name_round_trip (fun p => p) (fun p => p) initial_app best [] []
           "Ann Lee" eq_refl eq_refl).
Defined.

Lemma cooldown_shown_after_marking_witness :
  let s := feed initial_app (repeat "Bob" 5) in
  let d := mkDisk {["Bob" := Json {["user_type" := "Student"]}]} ∅ in
  let r := mark_attendance s d "Bob" 0 None in
  let s1 := update_recognition_state (marked_app r) "Bob" in
  let v := draw_on_frame s1 1500000 1600000 None "Bob" Infinity in
  exists remaining,
    status_text v = AlreadyLogged "Bob" remaining
    /\ display_name v = "Bob"
    /\ ((0 <= 1600000)%Z -> (remaining <= 300)%Z)
    /\ ((1600000 <= 0 + timedelta_seconds 300)%Z -> (0 <= remaining)%Z).
Proof.
  intros s d r s1 v.
  assert (Hw : marked_written r
               = Some (student_attendance_file,
                       [Text "Bob"; Text "N/A"; Strftime "%Y-%m-%d" 0;
                        Strftime "%H:%M:%S" 0]))
    by (vm_compute; reflexivity).
  assert (Hc : (4 <= stable_recognition_count s)%Z) by (vm_compute; discriminate).
  assert (Hnow : (1500000 < 0 + timedelta_seconds 300)%Z) by (vm_compute; reflexivity).
  exact (cooldown_shown_after_marking s d "Bob" 0 1500000 1600000 None _ _
           None "Bob" Infinity Hw Hc eq_refl ltac:(discriminate) Hnow).
Defined.


Lemma placeholder_entry_focus_witness :
  let e := typed (_clear_placeholder (PlaceholderEntry_init "Password" (Some "*")))
                 "admin123" in
  _add_placeholder (_clear_placeholder (PlaceholderEntry_init "Password" (Some "*")))
  = PlaceholderEntry_init "Password" (Some "*")
  /\ entry_text (_add_placeholder e) = "admin123"
  /\ entry_show (_add_placeholder e) = "*".
Proof.
  intros e.
  destruct (placeholder_entry_focus "Password" "admin123" (Some "*")) as [Hback Hkept].
  split; [exact Hback|]. apply Hkept. discriminate.
Defined.
